(** * A shallow embedding of [engine/engine_train.py] ([class Trainer])

    The trainer drives opaque numeric collaborators (model forward pass,
    mixing augmentation, optimiser, EMA wrapper, scheduler).  They are kept
    abstract in the record [Collab]; the control flow, the bookkeeping
    fields of [Trainer] and the calls made on the collaborators are written
    out as in the source.  A method of [Trainer] is a computation in a small
    state / error / trace monad [M]: it threads the trainer object, may raise
    (a Python exception), and records the observable calls it makes
    (optimiser calls, EMA updates, metrics-sink scalars, text-log lines,
    checkpoint writes, ...) as a list of [event]s. *)

From Stdlib Require Import List Bool Arith ZArith QArith Qminmax String Lia Lqa.
Import ListNotations.

(** ** Collaborators *)

(** Model identity: [self.model] (live) or [self.model_ema] (shadow). *)
Inductive model_id := Live | Ema.

(** [nn.Module.train()] / [nn.Module.eval()] mode. *)
Inductive model_mode := TrainMode | EvalMode.

(** The external collaborators, abstract.  Numbers returned by [.item()]
    are rationals; a NaN is [None] where it can arise (means of empty
    tensors or lists). *)
Record Collab := {
  Sample : Type;
  Label : Type;
  Logit : Type;
  Params : Type;
  Grad : Type;
  MixMode : Type;
  label_eqb : Label -> Label -> bool;
  (** [model(inputs)] per sample, for the model's parameters and mode *)
  forward : model_mode -> Params -> Sample -> Logit;
  (** [logits.argmax(dim=-1)] per sample *)
  argmax : Logit -> Label;
  (** [self.criterion(logits, targets).item()] *)
  criterion : list Logit -> list Label -> Q;
  (** [self.mix.forward(inputs, targets)] = (mode, inputs, target_a, target_b, lam) *)
  mix_forward : list Sample -> list Label ->
                MixMode * list Sample * list Label * list Label * Q;
  (** [self.mix.mix_criterion(mode, criterion, logits, target_a, target_b, lam)] *)
  mix_criterion : MixMode -> (list Logit -> list Label -> Q) ->
                  list Logit -> list Label -> list Label -> Q -> Q;
  (** gradient produced by [loss.backward()] at the given parameters *)
  grad_of : Params -> MixMode -> list Sample -> list Label -> list Label -> Q -> Grad;
  (** gradient accumulation of [backward] into an existing [.grad] *)
  grad_add : Grad -> Grad -> Grad;
  (** [optimizer.step()] on parameters that carry a gradient *)
  opt_apply : Params -> Grad -> Params;
  (** [model_ema.update()]: new shadow from the old shadow and the live model *)
  ema_update : Params -> Params -> Params;
  (** learning rate set by [scheduler.step(n)] *)
  sched_lr : nat -> Q
}.

(** A batch of the data loaders: [(inputs, targets)]. *)
Definition Batch (C : Collab) : Type := (list (Sample C) * list (Label C))%type.

(** ** Observable events *)

(** Lines sent to [logger.info]. *)
Inductive log_msg :=
| MsgBanner (s : string)
| MsgTrainIter (epoch batch_idx n_batches : nat) (mean_loss mean_acc : option Q) (lr : Q)
| MsgFinish (acc loss : option Q).

(** The methods of [Trainer] called by [run]. *)
Inductive call :=
| CallTrain (epoch : nat)
| CallValid (epoch : nat) (isEMA : bool)
| CallWriteLog (epoch : nat).

Inductive event :=
| ECall (c : call)                    (* entry into a Trainer method *)
| EModeSet (m : model_id) (md : model_mode)
| EForward (m : model_id)             (* a forward pass of a model on a batch *)
| EZeroGrad | EBackward | EOptStep | EEmaUpdate
| EScalar (tag : string) (value : option Q) (step : nat)  (* writer.add_scalar *)
| EText (msg : log_msg)               (* logger.info *)
| ESchedStep (n : nat)                (* scheduler.step(n) *)
| EGc                                 (* gc.collect() *)
| ECompare                            (* the best-metric comparison block of run *)
| ESave (epoch : nat) (is_best is_ema_best : bool) (best best_ema : Q).

Section Trainer.

Context (C : Collab).

(** ** The trainer object *)

Record Trainer := {
  params : Params C;
  ema_params : Params C;
  grads : option (Grad C);            (* [.grad] of the live parameters *)
  live_mode : model_mode;
  ema_mode : model_mode;
  lr : Q;                             (* optimizer.param_groups[0]["lr"] *)
  train_loader : list (Batch C);
  valid_loader : list (Batch C);
  start_epoch : nat;
  max_epoch : nat;
  log_iter : nat;
  log_freq : Z;
  best_model_metric : Q;
  best_model_ema_metric : Q
}.

Definition set_params (st : Trainer) (v : Params C) : Trainer :=
  {| params := v;
     ema_params := ema_params st;
     grads := grads st;
     live_mode := live_mode st;
     ema_mode := ema_mode st;
     lr := lr st;
     train_loader := train_loader st;
     valid_loader := valid_loader st;
     start_epoch := start_epoch st;
     max_epoch := max_epoch st;
     log_iter := log_iter st;
     log_freq := log_freq st;
     best_model_metric := best_model_metric st;
     best_model_ema_metric := best_model_ema_metric st |}.

Definition set_ema_params (st : Trainer) (v : Params C) : Trainer :=
  {| params := params st;
     ema_params := v;
     grads := grads st;
     live_mode := live_mode st;
     ema_mode := ema_mode st;
     lr := lr st;
     train_loader := train_loader st;
     valid_loader := valid_loader st;
     start_epoch := start_epoch st;
     max_epoch := max_epoch st;
     log_iter := log_iter st;
     log_freq := log_freq st;
     best_model_metric := best_model_metric st;
     best_model_ema_metric := best_model_ema_metric st |}.

Definition set_grads (st : Trainer) (v : option (Grad C)) : Trainer :=
  {| params := params st;
     ema_params := ema_params st;
     grads := v;
     live_mode := live_mode st;
     ema_mode := ema_mode st;
     lr := lr st;
     train_loader := train_loader st;
     valid_loader := valid_loader st;
     start_epoch := start_epoch st;
     max_epoch := max_epoch st;
     log_iter := log_iter st;
     log_freq := log_freq st;
     best_model_metric := best_model_metric st;
     best_model_ema_metric := best_model_ema_metric st |}.

Definition set_live_mode (st : Trainer) (v : model_mode) : Trainer :=
  {| params := params st;
     ema_params := ema_params st;
     grads := grads st;
     live_mode := v;
     ema_mode := ema_mode st;
     lr := lr st;
     train_loader := train_loader st;
     valid_loader := valid_loader st;
     start_epoch := start_epoch st;
     max_epoch := max_epoch st;
     log_iter := log_iter st;
     log_freq := log_freq st;
     best_model_metric := best_model_metric st;
     best_model_ema_metric := best_model_ema_metric st |}.

Definition set_ema_mode (st : Trainer) (v : model_mode) : Trainer :=
  {| params := params st;
     ema_params := ema_params st;
     grads := grads st;
     live_mode := live_mode st;
     ema_mode := v;
     lr := lr st;
     train_loader := train_loader st;
     valid_loader := valid_loader st;
     start_epoch := start_epoch st;
     max_epoch := max_epoch st;
     log_iter := log_iter st;
     log_freq := log_freq st;
     best_model_metric := best_model_metric st;
     best_model_ema_metric := best_model_ema_metric st |}.

Definition set_lr (st : Trainer) (v : Q) : Trainer :=
  {| params := params st;
     ema_params := ema_params st;
     grads := grads st;
     live_mode := live_mode st;
     ema_mode := ema_mode st;
     lr := v;
     train_loader := train_loader st;
     valid_loader := valid_loader st;
     start_epoch := start_epoch st;
     max_epoch := max_epoch st;
     log_iter := log_iter st;
     log_freq := log_freq st;
     best_model_metric := best_model_metric st;
     best_model_ema_metric := best_model_ema_metric st |}.

Definition set_log_iter (st : Trainer) (v : nat) : Trainer :=
  {| params := params st;
     ema_params := ema_params st;
     grads := grads st;
     live_mode := live_mode st;
     ema_mode := ema_mode st;
     lr := lr st;
     train_loader := train_loader st;
     valid_loader := valid_loader st;
     start_epoch := start_epoch st;
     max_epoch := max_epoch st;
     log_iter := v;
     log_freq := log_freq st;
     best_model_metric := best_model_metric st;
     best_model_ema_metric := best_model_ema_metric st |}.

Definition set_best_model_metric (st : Trainer) (v : Q) : Trainer :=
  {| params := params st;
     ema_params := ema_params st;
     grads := grads st;
     live_mode := live_mode st;
     ema_mode := ema_mode st;
     lr := lr st;
     train_loader := train_loader st;
     valid_loader := valid_loader st;
     start_epoch := start_epoch st;
     max_epoch := max_epoch st;
     log_iter := log_iter st;
     log_freq := log_freq st;
     best_model_metric := v;
     best_model_ema_metric := best_model_ema_metric st |}.

Definition set_best_model_ema_metric (st : Trainer) (v : Q) : Trainer :=
  {| params := params st;
     ema_params := ema_params st;
     grads := grads st;
     live_mode := live_mode st;
     ema_mode := ema_mode st;
     lr := lr st;
     train_loader := train_loader st;
     valid_loader := valid_loader st;
     start_epoch := start_epoch st;
     max_epoch := max_epoch st;
     log_iter := log_iter st;
     log_freq := log_freq st;
     best_model_metric := best_model_metric st;
     best_model_ema_metric := v |}.

(** ** The state / error / trace monad *)

Definition M (A : Type) : Type := Trainer -> option A * Trainer * list event.

Definition ret {A} (a : A) : M A := fun st => (Some a, st, []).

Definition bind {A B} (m : M A) (f : A -> M B) : M B :=
  fun st =>
    match m st with
    | (Some a, st1, t1) => let '(r, st2, t2) := f a st1 in (r, st2, t1 ++ t2)
    | (None, st1, t1) => (None, st1, t1)
    end.

(** A Python exception: the computation stops here. *)
Definition raise {A} : M A := fun st => (None, st, []).

Definition get : M Trainer := fun st => (Some st, st, []).
Definition put (st' : Trainer) : M unit := fun _ => (Some tt, st', []).
Definition modify (g : Trainer -> Trainer) : M unit := fun st => (Some tt, g st, []).
Definition emit (e : event) : M unit := fun st => (Some tt, st, [e]).

Notation "x <- c1 ;; c2" := (bind c1 (fun x => c2))
  (at level 61, c1 at next level, right associativity).
Notation "' pat <- c1 ;; c2" := (bind c1 (fun x => match x with pat => c2 end))
  (at level 61, pat pattern, c1 at next level, right associativity).
Notation "c1 ;; c2" := (bind c1 (fun _ => c2))
  (at level 61, right associativity).

(** ** Numeric helpers *)

Definition qsum (xs : list Q) : Q := fold_right Qplus 0 xs.

(** Mean of a tensor or a list of numbers: NaN ([None]) when empty. *)
Definition tensor_mean (xs : list Q) : option Q :=
  match xs with
  | [] => None
  | _ => Some (qsum xs / inject_Z (Z.of_nat (List.length xs)))
  end.

Fixpoint all_some (xs : list (option Q)) : option (list Q) :=
  match xs with
  | [] => Some []
  | Some x :: xs' => option_map (cons x) (all_some xs')
  | None :: _ => None
  end.

(** [np.mean(history)]: NaN if the list is empty or holds a NaN. *)
Definition np_mean (xs : list (option Q)) : option Q :=
  match all_some xs with
  | Some ys => tensor_mean ys
  | None => None
  end.

(** Python's [a > b] with a possibly-NaN left operand (NaN compares false). *)
Definition gt_nan (a : option Q) (b : Q) : bool :=
  match a with
  | Some x => negb (Qle_bool x b)
  | None => false
  end.

Definition indicator (b : bool) : Q := if b then 1 else 0.

(** [(logits.argmax(dim=-1) == targets).float()], with broadcasting of a
    one-element side; other shape mismatches raise. *)
Definition eq_float (ps ts : list (Label C)) : option (list Q) :=
  if Nat.eqb (List.length ps) (List.length ts)
  then Some (map (fun pt => indicator (label_eqb C (fst pt) (snd pt))) (combine ps ts))
  else match ps, ts with
       | [p], _ => Some (map (fun t => indicator (label_eqb C p t)) ts)
       | _, [t] => Some (map (fun p => indicator (label_eqb C p t)) ps)
       | _, _ => None
       end.

(** [(logits.argmax(dim=-1) == targets).float().mean().detach().item()] *)
Definition batch_acc (logits : list (Logit C)) (targets : list (Label C)) : M (option Q) :=
  match eq_float (map (argmax C) logits) targets with
  | Some ind => ret (tensor_mean ind)
  | None => raise
  end.

(** ** Collaborator calls on the trainer's state *)

Definition model_params (st : Trainer) (m : model_id) : Params C :=
  match m with Live => params st | Ema => ema_params st end.

Definition model_mode_of (st : Trainer) (m : model_id) : model_mode :=
  match m with Live => live_mode st | Ema => ema_mode st end.

Definition set_mode (st : Trainer) (m : model_id) (md : model_mode) : Trainer :=
  match m with Live => set_live_mode st md | Ema => set_ema_mode st md end.

(** [model.train()] / [model.eval()] *)
Definition set_model_mode (m : model_id) (md : model_mode) : M unit :=
  modify (fun st => set_mode st m md);; emit (EModeSet m md).

(** [self.optimizer.zero_grad()] (gradients set to None) *)
Definition zero_grad : M unit :=
  modify (fun st => set_grads st None);; emit EZeroGrad.

(** [loss.backward()]: accumulate into [.grad] *)
Definition backward (g : Grad C) : M unit :=
  modify (fun st => set_grads st (Some match grads st with
                                        | None => g
                                        | Some g0 => grad_add C g0 g
                                        end));;
  emit EBackward.

(** [self.optimizer.step()]: parameters without a gradient are skipped *)
Definition opt_step : M unit :=
  modify (fun st => set_params st match grads st with
                                  | None => params st
                                  | Some g => opt_apply C (params st) g
                                  end);;
  emit EOptStep.

(** [self.model_ema.update()] *)
Definition ema_step : M unit :=
  modify (fun st => set_ema_params st (ema_update C (ema_params st) (params st)));;
  emit EEmaUpdate.

(** [self.log_iter % self.log_freq == 0] (Python's floor modulo; raises on 0) *)
Definition log_due : M bool :=
  st <- get;;
  if Z.eqb (log_freq st) 0 then raise
  else ret (Z.eqb (Z.modulo (Z.of_nat (log_iter st)) (log_freq st)) 0).

Definition tag_train_acc_iter : string := "Train/Accuracy_iter".
Definition tag_train_loss_iter : string := "Train/Loss_iter".


(** ** [Trainer.train_one_epoch] *)

(** One iteration of the [for batch_idx, batch in enumerate(self.train_loader)]
    loop; [lh] and [ah] are [loss_history] and [acc_history] so far. *)
Definition train_step (epoch n_batches batch_idx : nat)
    (lh ah : list (option Q)) (batch : Batch C)
    : M (list (option Q) * list (option Q)) :=
  st <- get;;
  let lr0 := lr st in
  let '(inputs, targets) := batch in
  let '(mode, inputs', target_a, target_b, lam) := mix_forward C inputs targets in
  emit (EForward Live);;
  let logits := map (forward C (live_mode st) (params st)) inputs' in
  let loss := mix_criterion C mode (criterion C) logits target_a target_b lam in
  zero_grad;;
  st1 <- get;;
  backward (grad_of C (params st1) mode inputs' target_a target_b lam);;
  opt_step;;
  ema_step;;
  acc <- batch_acc logits targets;;
  let lh' := lh ++ [Some loss] in
  let ah' := ah ++ [acc] in
  due <- log_due;;
  (if due then
     st2 <- get;;
     emit (EScalar tag_train_acc_iter (last ah' None) (log_iter st2));;
     emit (EScalar tag_train_loss_iter (last lh' None) (log_iter st2));;
     emit (EText (MsgTrainIter epoch batch_idx n_batches (np_mean lh') (np_mean ah') lr0))
   else ret tt);;
  modify (fun st3 => set_log_iter st3 (S (log_iter st3)));;
  ret (lh', ah').

Fixpoint train_batches (epoch n_batches batch_idx : nat)
    (lh ah : list (option Q)) (bs : list (Batch C))
    : M (list (option Q) * list (option Q)) :=
  match bs with
  | [] => ret (lh, ah)
  | b :: bs' =>
      '(lh', ah') <- train_step epoch n_batches batch_idx lh ah b;;
      train_batches epoch n_batches (S batch_idx) lh' ah' bs'
  end.

(** The returned dictionary [{"Accuracy": ..., "Loss": ...}]. *)
Record metrics := { Accuracy : option Q; Loss : option Q }.

Definition train_one_epoch (epoch : nat) : M metrics :=
  emit (ECall (CallTrain epoch));;
  emit (EText (MsgBanner "Training"));;
  set_model_mode Live TrainMode;;
  st <- get;;
  let loader := train_loader st in
  '(lh, ah) <- train_batches epoch (List.length loader) 0 [] [] loader;;
  let metric_acc := np_mean ah in
  let metric_loss := np_mean lh in
  emit (EText (MsgFinish metric_acc metric_loss));;
  ret {| Accuracy := metric_acc; Loss := metric_loss |}.

(** ** [Trainer.valid_one_epoch] *)

(** [model = self.model if isEMA else self.model_ema] *)
Definition valid_model (isEMA : bool) : model_id := if isEMA then Live else Ema.

Definition valid_step (m : model_id) (lh ah : list (option Q)) (batch : Batch C)
    : M (list (option Q) * list (option Q)) :=
  st <- get;;
  let '(inputs, targets) := batch in
  emit (EForward m);;
  let logits := map (forward C (model_mode_of st m) (model_params st m)) inputs in
  let loss := criterion C logits targets in
  acc <- batch_acc logits targets;;
  ret (lh ++ [Some loss], ah ++ [acc]).

Fixpoint valid_batches (m : model_id) (lh ah : list (option Q)) (bs : list (Batch C))
    : M (list (option Q) * list (option Q)) :=
  match bs with
  | [] => ret (lh, ah)
  | b :: bs' => '(lh', ah') <- valid_step m lh ah b;; valid_batches m lh' ah' bs'
  end.

Definition valid_one_epoch (epoch : nat) (isEMA : bool) : M metrics :=
  emit (ECall (CallValid epoch isEMA));;
  let m := valid_model isEMA in
  emit (EText (MsgBanner "Validation"));;
  set_model_mode m EvalMode;;
  st <- get;;
  '(lh, ah) <- valid_batches m [] [] (valid_loader st);;
  let metric_acc := np_mean ah in
  let metric_loss := np_mean lh in
  emit (EText (MsgFinish metric_acc metric_loss));;
  ret {| Accuracy := metric_acc; Loss := metric_loss |}.

(** ** [Trainer.write_log] *)

Definition tag_lr : string := "Learing rate".
Definition tag_train_acc : string := "Train/Accuracy".
Definition tag_train_loss : string := "Train/Loss".
Definition tag_valid_acc : string := "Valid/Accuracy".
Definition tag_valid_loss : string := "Valid/Loss".
Definition tag_valid_ema_acc : string := "Valid/EMA_Accuracy".
Definition tag_valid_ema_loss : string := "Valid/EMA_Loss".

Definition write_log (epoch : nat) (lr0 : Q)
    (train_metric valid_metric valid_ema_metric : metrics) : M unit :=
  emit (ECall (CallWriteLog epoch));;
  emit (EScalar tag_lr (Some lr0) epoch);;
  emit (EScalar tag_train_acc (Accuracy train_metric) epoch);;
  emit (EScalar tag_train_loss (Loss train_metric) epoch);;
  emit (EScalar tag_valid_acc (Accuracy valid_metric) epoch);;
  emit (EScalar tag_valid_loss (Loss valid_metric) epoch);;
  emit (EScalar tag_valid_ema_acc (Accuracy valid_ema_metric) epoch);;
  emit (EScalar tag_valid_ema_loss (Loss valid_ema_metric) epoch).

(** ** [Trainer.run] *)

Definition banner_line : string := "================================================================================".

(** The body of [for epoch in range(self.start_epoch, self.max_epoch)]. *)
Definition run_epoch (epoch : nat) : M unit :=
  modify (fun st => set_lr st (sched_lr C (S epoch)));; emit (ESchedStep (S epoch));;
  emit (EText (MsgBanner banner_line));;
  train_metrics <- train_one_epoch epoch;;
  valid_metrics <- valid_one_epoch epoch false;;
  valid_ema_metrics <- valid_one_epoch epoch true;;
  emit EGc;;
  emit ECompare;;
  st1 <- get;;
  let is_best := gt_nan (Accuracy valid_metrics) (best_model_metric st1) in
  let st2 := if is_best
             then match Accuracy valid_metrics with
                  | Some a => set_best_model_metric st1 a
                  | None => st1
                  end
             else st1 in
  let is_ema_best := gt_nan (Accuracy valid_ema_metrics) (best_model_ema_metric st2) in
  let st3 := if is_ema_best
             then match Accuracy valid_ema_metrics with
                  | Some a => set_best_model_ema_metric st2 a
                  | None => st2
                  end
             else st2 in
  put st3;;
  emit (ESave epoch is_best is_ema_best
          (best_model_metric st3) (best_model_ema_metric st3));;
  st4 <- get;;
  write_log epoch (lr st4) train_metrics valid_metrics valid_ema_metrics;;
  emit (EText (MsgBanner banner_line)).

Fixpoint run_loop (epochs : list nat) : M unit :=
  match epochs with
  | [] => ret tt
  | e :: es => run_epoch e;; run_loop es
  end.

(** [range(start_epoch, max_epoch)] *)
Definition epoch_range (st : Trainer) : list nat :=
  seq (start_epoch st) (max_epoch st - start_epoch st).

Definition run : M unit :=
  zero_grad;;
  opt_step;;
  st <- get;;
  run_loop (epoch_range st).


(** ** [Trainer.__init__] *)

(** [opts] is an attribute namespace read with [getattr(opts, name, default)];
    [kwargs] is the keyword-argument dictionary.  Both are association lists
    (the first binding of a name is the one seen). *)
Fixpoint assoc {V : Type} (k : string) (l : list (string * V)) : option V :=
  match l with
  | [] => None
  | (k', v) :: l' => if String.eqb k k' then Some v else assoc k l'
  end.

(** [getattr(opts, name, default)] for an integer option *)
Definition getattr_Z (opts : list (string * Z)) (name : string) (default : Z) : Z :=
  match assoc name opts with
  | Some v => v
  | None => default
  end.

(** [default if key not in kwargs else kwargs[key]] *)
Definition kwarg_or (kwargs : list (string * Q)) (key : string) (default : Q) : Q :=
  match assoc key kwargs with
  | Some v => v
  | None => default
  end.

(** The defaults of [start_epoch] and [max_epoch]. *)
Definition default_start_epoch : nat := 0.
Definition default_max_epoch : nat := 50.

(** The fields of [self] that the other methods read.  The models, the
    optimiser (its parameters, gradients and learning rate) and the loaders
    are the objects passed in; moving them to the device changes none of
    these.  [profile_first] and [enable_mix_precision] are stored but never
    read by the methods, so they have no field. *)
Definition trainer_init (opts : list (string * Z))
    (model_params0 ema_params0 : Params C) (grads0 : option (Grad C))
    (model_mode0 ema_mode0 : model_mode) (optimizer_lr : Q)
    (train_loader0 valid_loader0 : list (Batch C))
    (start_epoch0 max_epoch0 : nat) (kwargs : list (string * Q)) : Trainer :=
  {| params := model_params0;
     ema_params := ema_params0;
     grads := grads0;
     live_mode := model_mode0;
     ema_mode := ema_mode0;
     lr := optimizer_lr;
     train_loader := train_loader0;
     valid_loader := valid_loader0;
     start_epoch := start_epoch0;
     max_epoch := max_epoch0;
     log_iter := 0;
     log_freq := getattr_Z opts "common.log_freq" 100;
     best_model_metric := kwarg_or kwargs "best_model_metric" 0;
     best_model_ema_metric := kwarg_or kwargs "best_model_ema_metric" 0 |}.

(** ** Views of a trace *)

(** The steps of the metrics-sink scalars written under [tag]. *)
Definition scalar_steps (tag : string) (t : list event) : list nat :=
  flat_map (fun ev => match ev with
                      | EScalar tag' _ s => if String.eqb tag tag' then [s] else []
                      | _ => []
                      end) t.

(** Optimiser, EMA, scheduler, metrics-sink and checkpoint calls. *)
Definition is_side_effect (ev : event) : bool :=
  match ev with
  | EZeroGrad | EBackward | EOptStep | EEmaUpdate
  | EScalar _ _ _ | ESchedStep _ | ESave _ _ _ _ _ => true
  | _ => false
  end.

(** Checkpoint writes and the metrics-sink scalars other than the
    per-iteration ones of the training loop. *)
Definition is_epoch_output (ev : event) : bool :=
  match ev with
  | ESave _ _ _ _ _ => true
  | EScalar tag _ _ =>
      negb (String.eqb tag tag_train_acc_iter || String.eqb tag tag_train_loss_iter)
  | _ => false
  end.

(** The fields a training iteration does not write. *)
Definition train_frame (st st' : Trainer) : Prop :=
  live_mode st' = live_mode st /\ ema_mode st' = ema_mode st /\ lr st' = lr st /\
  train_loader st' = train_loader st /\ valid_loader st' = valid_loader st /\
  start_epoch st' = start_epoch st /\ max_epoch st' = max_epoch st /\
  log_freq st' = log_freq st /\
  best_model_metric st' = best_model_metric st /\
  best_model_ema_metric st' = best_model_ema_metric st.

(** [k % log_freq == 0] *)
Definition log_due_at (f : Z) (k : nat) : bool := Z.eqb (Z.of_nat k mod f) 0.

(** The live parameters after each iteration of a training loop over [bs]
    started from [p]: one optimiser step per batch, with the gradient of
    that batch (mixed as [self.mix.forward] returns it) at the current
    parameters. *)
Fixpoint live_trajectory (p : Params C) (bs : list (Batch C)) : list (Params C) :=
  match bs with
  | [] => []
  | (inputs, targets) :: bs' =>
      let '(mode, inputs', target_a, target_b, lam) := mix_forward C inputs targets in
      let p' := opt_apply C p (grad_of C p mode inputs' target_a target_b lam) in
      p' :: live_trajectory p' bs'
  end.

(** The logits a model computes on a batch, in the trainer's current state. *)
Definition batch_logits (st : Trainer) (m : model_id) (b : Batch C) : list (Logit C) :=
  map (forward C (model_mode_of st m) (model_params st m)) (fst b).

(** The accuracy recorded for one validation batch. *)
Definition valid_batch_acc (st : Trainer) (m : model_id) (b : Batch C) (a : option Q) : Prop :=
  exists ind, eq_float (map (argmax C) (batch_logits st m b)) (snd b) = Some ind /\
              a = tensor_mean ind.

(** The logits of a model in eval mode on a batch. *)
Definition eval_logits (p : Params C) (b : Batch C) : list (Logit C) :=
  map (forward C EvalMode p) (fst b).

(** ** Projections of a computation *)

Definition res_of {A} (m : M A) (st : Trainer) : option A := let '(r, _, _) := m st in r.
Definition st_of {A} (m : M A) (st : Trainer) : Trainer := let '(_, s, _) := m st in s.
Definition tr_of {A} (m : M A) (st : Trainer) : list event := let '(_, _, t) := m st in t.

(** ** Monad lemmas *)

Lemma bind_some_inv {A B} (m : M A) (f : A -> M B) st b st' t :
  bind m f st = (Some b, st', t) ->
  exists a st1 t1 t2, m st = (Some a, st1, t1) /\ f a st1 = (Some b, st', t2) /\ t = t1 ++ t2.
Proof.
  unfold bind. destruct (m st) as [[[a|] st1] t1]; [|discriminate].
  destruct (f a st1) as [[r st2] t2] eqn:Hf. intros H; inversion H; subst.
  eauto 7.
Qed.

Lemma bind_unfold {A B} (m : M A) (f : A -> M B) st :
  bind m f st =
  match m st with
  | (Some a, st1, t1) => let '(r, st2, t2) := f a st1 in (r, st2, t1 ++ t2)
  | (None, st1, t1) => (None, st1, t1)
  end.
Proof. reflexivity. Qed.

(** A computation whose trace contains no event selected by [P]. *)
Definition silent (P : event -> bool) {A} (m : M A) : Prop :=
  forall st, filter P (tr_of m st) = [].

Lemma silent_bind P {A B} (m : M A) (f : A -> M B) :
  silent P m -> (forall a, silent P (f a)) -> silent P (bind m f).
Proof.
  unfold silent, tr_of, bind. intros Hm Hf st. specialize (Hm st).
  destruct (m st) as [[[a|] st1] t1]; [|exact Hm].
  specialize (Hf a st1). destruct (f a st1) as [[r st2] t2].
  rewrite filter_app, Hm, Hf. reflexivity.
Qed.

Lemma silent_ret P {A} (a : A) : silent P (ret a).
Proof. intros st; reflexivity. Qed.

Lemma silent_raise P {A} : silent P (@raise A).
Proof. intros st; reflexivity. Qed.

Lemma silent_get P : silent P get.
Proof. intros st; reflexivity. Qed.

Lemma silent_put P st' : silent P (put st').
Proof. intros st; reflexivity. Qed.

Lemma silent_emit P e : P e = false -> silent P (emit e).
Proof. intros H st. unfold tr_of, emit. simpl. rewrite H. reflexivity. Qed.

(** A computation that leaves a projection of the trainer unchanged. *)
Definition keeps {X} (f : Trainer -> X) {A} (m : M A) : Prop :=
  forall st, f (st_of m st) = f st.

Lemma keeps_bind {X} (f : Trainer -> X) {A B} (m : M A) (g : A -> M B) :
  keeps f m -> (forall a, keeps f (g a)) -> keeps f (bind m g).
Proof.
  unfold keeps, st_of, bind. intros Hm Hg st. specialize (Hm st).
  destruct (m st) as [[[a|] st1] t1]; [|exact Hm].
  specialize (Hg a st1). destruct (g a st1) as [[r st2] t2]. congruence.
Qed.

Lemma keeps_ret {X} (f : Trainer -> X) {A} (a : A) : keeps f (ret a).
Proof. intros st; reflexivity. Qed.

Lemma keeps_raise {X} (f : Trainer -> X) {A} : keeps f (@raise A).
Proof. intros st; reflexivity. Qed.

Lemma keeps_get {X} (f : Trainer -> X) : keeps f get.
Proof. intros st; reflexivity. Qed.

Lemma keeps_emit {X} (f : Trainer -> X) e : keeps f (emit e).
Proof. intros st; reflexivity. Qed.

Lemma keeps_modify {X} (f : Trainer -> X) g : (forall s, f (g s) = f s) -> keeps f (modify g).
Proof. intros H st. apply H. Qed.

Lemma silent_modify P g : silent P (modify g).
Proof. intros st; reflexivity. Qed.


Ltac split_match :=
  match goal with
  | |- context [match ?x with _ => _ end] => destruct x
  end.

(** Case splits on the values the collaborators and the configuration return. *)
Ltac split_atom :=
  match goal with
  | |- context [mix_forward C ?a ?b] =>
      destruct (mix_forward C a b) as [[[[? ?] ?] ?] ?]
  | |- context [eq_float ?a ?b] => destruct (eq_float a b) eqn:?
  | |- context [Z.eqb ?a ?b] => destruct (Z.eqb a b) eqn:?
  end.

Ltac keeps_tac :=
  repeat (cbv zeta; first
    [ apply keeps_bind; [|intros ?]
    | apply keeps_ret | apply keeps_raise | apply keeps_get | apply keeps_emit
    | apply keeps_modify; intros ?;
      first [reflexivity | unfold set_mode; split_match; reflexivity]
    | split_match ]).

Ltac silent_tac :=
  repeat (cbv zeta; first
    [ apply silent_bind; [|intros ?]
    | apply silent_ret | apply silent_raise | apply silent_get | apply silent_modify
    | apply silent_emit; reflexivity
    | split_match ]).

Lemma tr_of_eq {A} (m : M A) st r s t : m st = (r, s, t) -> tr_of m st = t.
Proof. unfold tr_of. intros ->. reflexivity. Qed.

Lemma st_of_eq {A} (m : M A) st r s t : m st = (r, s, t) -> st_of m st = s.
Proof. unfold st_of. intros ->. reflexivity. Qed.

Lemma res_of_eq {A} (m : M A) st r s t : m st = (r, s, t) -> res_of m st = r.
Proof. unfold res_of. intros ->. reflexivity. Qed.

(** ** Validation leaves the trainer untouched *)

Lemma valid_batches_keeps_state m bs :
  forall lh ah, keeps (fun s => s) (valid_batches m lh ah bs).
Proof.
  induction bs as [|b bs IH]; intros lh ah; simpl.
  - apply keeps_ret.
  - apply keeps_bind; [|intros [lh' ah']; apply IH].
    unfold valid_step, batch_acc. keeps_tac.
Qed.


Definition forward_of_other (m : model_id) (ev : event) : bool :=
  match ev, m with
  | EForward Live, Ema | EForward Ema, Live => true
  | _, _ => false
  end.

Lemma valid_batches_forwards m bs :
  forall lh ah, silent (forward_of_other m) (valid_batches m lh ah bs).
Proof.
  induction bs as [|b bs IH]; intros lh ah; simpl.
  - apply silent_ret.
  - apply silent_bind; [|intros [lh' ah']; apply IH].
    unfold valid_step, batch_acc. silent_tac.
    apply silent_emit. destruct m; reflexivity.
Qed.

Lemma filter_nil_forwards m l :
  filter (forward_of_other m) l = [] -> forall m', In (EForward m') l -> m' = m.
Proof.
  intros H m' Hin.
  assert (Hf : forward_of_other m (EForward m') = false).
  { destruct (forward_of_other m (EForward m')) eqn:E; [|reflexivity].
    assert (In (EForward m') (filter (forward_of_other m) l)) by (apply filter_In; auto).
    rewrite H in *. contradiction. }
  destruct m, m'; simpl in Hf; congruence.
Qed.


(** Optimiser, EMA and forward-pass events of the training loop. *)
Definition is_train_op (ev : event) : bool :=
  match ev with
  | EForward _ | EZeroGrad | EBackward | EOptStep | EEmaUpdate => true
  | _ => false
  end.

(** What one training batch does on the model, optimiser and EMA wrapper. *)
Definition batch_ops : list event := [EForward Live; EZeroGrad; EBackward; EOptStep; EEmaUpdate].

Lemma train_step_ops epoch n idx lh ah b st :
  filter is_train_op (tr_of (train_step epoch n idx lh ah b) st) = batch_ops.
Proof.
  destruct b as [inputs targets].
  unfold tr_of, train_step, batch_acc, log_due, zero_grad, backward, opt_step, ema_step,
    bind, get, modify, emit, ret, raise.
  cbn. repeat (split_atom; cbn). all: reflexivity.
Qed.

Lemma train_batches_ops epoch n bs :
  forall idx lh ah st, res_of (train_batches epoch n idx lh ah bs) st <> None ->
  filter is_train_op (tr_of (train_batches epoch n idx lh ah bs) st) =
  List.concat (List.repeat batch_ops (List.length bs)).
Proof.
  induction bs as [|b bs IH]; intros idx lh ah st Hok; [reflexivity|].
  pose proof (train_step_ops epoch n idx lh ah b st) as Hs.
  unfold res_of, tr_of in *. cbn [train_batches] in *. rewrite bind_unfold in *.
  destruct (train_step epoch n idx lh ah b st) as [[[[lh' ah']|] st1] t1]; [|congruence].
  specialize (IH (S idx) lh' ah' st1).
  destruct (train_batches epoch n (S idx) lh' ah' bs st1) as [[r st2] t2].
  rewrite filter_app, Hs, IH by exact Hok. reflexivity.
Qed.

(** Metrics-sink scalars and text-log lines. *)
Definition is_log (ev : event) : bool :=
  match ev with
  | EScalar _ _ _ | EText _ => true
  | _ => false
  end.

(** The outcome of one successful training iteration. *)
Lemma train_step_spec epoch n idx lh ah inputs targets st :
  match train_step epoch n idx lh ah (inputs, targets) st with
  | (Some (lh', ah'), st', t) =>
      let '(mode, inputs', target_a, target_b, lam) := mix_forward C inputs targets in
      let logits := map (forward C (live_mode st) (params st)) inputs' in
      let loss := mix_criterion C mode (criterion C) logits target_a target_b lam in
      exists ind,
        eq_float (map (argmax C) logits) targets = Some ind /\
        ah' = ah ++ [tensor_mean ind] /\
        lh' = lh ++ [Some loss] /\
        log_freq st <> 0%Z /\
        log_iter st' = S (log_iter st) /\
        filter is_log t =
          (if Z.eqb (Z.modulo (Z.of_nat (log_iter st)) (log_freq st)) 0
           then [EScalar tag_train_acc_iter (tensor_mean ind) (log_iter st);
                 EScalar tag_train_loss_iter (Some loss) (log_iter st);
                 EText (MsgTrainIter epoch idx n (np_mean lh') (np_mean ah') (lr st))]
           else [])
  | (None, _, _) => True
  end.
Proof.
  unfold train_step, batch_acc, log_due, zero_grad, backward, opt_step, ema_step,
    bind, get, modify, emit, ret, raise.
  cbn. destruct (mix_forward C inputs targets) as [[[[mode inputs'] ta] tb] lam]. cbn.
  repeat (split_atom; cbn).
  all: try exact I.
  all: exists l; rewrite ?last_last; repeat split; try reflexivity.
  all: apply Z.eqb_neq; assumption.
Qed.

(** ** Accuracy values *)

Definition in01 (x : Q) : Prop := 0 <= x /\ x <= 1.

(** A history entry that is a number (not NaN) in [0, 1]. *)
Definition acc_ok (o : option Q) : Prop := exists a, o = Some a /\ in01 a.

Definition batch_nonempty (b : Batch C) : Prop := fst b <> [] /\ snd b <> [].

Lemma qsum_bounds xs :
  Forall in01 xs -> 0 <= qsum xs /\ qsum xs <= inject_Z (Z.of_nat (List.length xs)).
Proof.
  induction 1 as [|x xs [Hx0 Hx1] _ [IH0 IH1]]; cbn [qsum fold_right List.length].
  - split; apply Qle_refl.
  - fold (qsum xs). rewrite Nat2Z.inj_succ, <- Z.add_1_l, inject_Z_plus.
    change (inject_Z 1) with 1. split; lra.
Qed.

Lemma tensor_mean_in01 xs :
  xs <> [] -> Forall in01 xs -> exists a, tensor_mean xs = Some a /\ in01 a.
Proof.
  intros Hne H. destruct xs as [|x xs']; [congruence|].
  destruct (qsum_bounds _ H) as [H0 H1].
  set (n := inject_Z (Z.of_nat (List.length (x :: xs')))) in *.
  assert (Hn : 0 < n).
  { unfold n. change 0 with (inject_Z 0). rewrite <- Zlt_Qlt. cbn [List.length]. lia. }
  eexists; split; [reflexivity|]. split.
  - apply Qle_shift_div_l; [exact Hn|]. rewrite Qmult_0_l. exact H0.
  - apply Qle_shift_div_r; [exact Hn|]. rewrite Qmult_1_l. exact H1.
Qed.

Lemma all_some_ok xs :
  Forall acc_ok xs ->
  exists ys, all_some xs = Some ys /\ List.length ys = List.length xs /\ Forall in01 ys.
Proof.
  induction 1 as [|o xs [a [-> Ha]] _ [ys [Hys [Hl Hf]]]].
  - exists []. repeat split; constructor.
  - exists (a :: ys). cbn. rewrite Hys. cbn. repeat split; [congruence|constructor; assumption].
Qed.

Lemma np_mean_ok xs : xs <> [] -> Forall acc_ok xs -> acc_ok (np_mean xs).
Proof.
  intros Hne H. destruct (all_some_ok _ H) as [ys [Hys [Hl Hf]]].
  unfold np_mean. rewrite Hys.
  apply tensor_mean_in01; [|exact Hf].
  destruct ys; [destruct xs; cbn in Hl; congruence | discriminate].
Qed.

Lemma indicators_in01 {X} (g : X -> bool) l :
  Forall in01 (map (fun x => indicator (g x)) l).
Proof.
  apply Forall_forall. intros q Hq. apply in_map_iff in Hq as [x [<- _]].
  unfold in01, indicator. destruct (g x); split; unfold Qle; cbn; lia.
Qed.

Lemma eq_float_ok ps ts ind :
  ps <> [] -> ts <> [] -> eq_float ps ts = Some ind -> ind <> [] /\ Forall in01 ind.
Proof.
  intros Hp Ht.
  destruct ps as [|p ps]; [congruence|]. destruct ts as [|t ts]; [congruence|].
  unfold eq_float. destruct (Nat.eqb _ _).
  - intros [= <-]. split; [discriminate|].
    exact (indicators_in01 (fun pt => label_eqb C (fst pt) (snd pt)) ((p, t) :: combine ps ts)).
  - destruct ps as [|p' ps].
    + intros [= <-]. split; [discriminate|].
      exact (indicators_in01 (fun t0 => label_eqb C p t0) (t :: ts)).
    + destruct ts as [|t' ts]; [|discriminate].
      intros [= <-]. split; [discriminate|].
      exact (indicators_in01 (fun p0 => label_eqb C p0 t) (p :: p' :: ps)).
Qed.

Lemma batch_acc_ok logits targets st r st' t :
  logits <> [] -> targets <> [] -> batch_acc logits targets st = (Some r, st', t) -> acc_ok r.
Proof.
  intros Hl Ht. unfold batch_acc.
  destruct (eq_float (map (argmax C) logits) targets) as [ind|] eqn:E; [|discriminate].
  intros [= <- _ _].
  destruct (eq_float_ok _ _ _ (fun H => Hl (map_eq_nil _ _ H)) Ht E) as [Hne Hf].
  exact (tensor_mean_in01 _ Hne Hf).
Qed.

(** The mixing augmentation keeps a non-empty batch non-empty. *)
Definition mix_keeps_nonempty : Prop :=
  forall xs ys, xs <> [] ->
  let '(_, xs', _, _, _) := mix_forward C xs ys in xs' <> [].

Lemma nonempty_map {X Y} (f : X -> Y) l : l <> [] -> map f l <> [].
Proof. intros H Hm. apply H, (map_eq_nil f l Hm). Qed.

Lemma train_batches_acc epoch n bs (Hmix : mix_keeps_nonempty) (Hb : Forall batch_nonempty bs) :
  forall idx lh ah st lh' ah',
  res_of (train_batches epoch n idx lh ah bs) st = Some (lh', ah') ->
  Forall acc_ok ah ->
  Forall acc_ok ah' /\ (List.length ah' = List.length ah + List.length bs)%nat.
Proof.
  induction Hb as [|[inputs targets] bs [Hi Ht] Hbs IH];
    intros idx lh ah st lh' ah' Hr Hah.
  - cbn in Hr. inversion Hr; subst. split; [assumption|cbn; lia].
  - unfold res_of in Hr. cbn [train_batches] in Hr.
    destruct (bind _ _ st) as [[r s] t] eqn:E. subst r.
    apply bind_some_inv in E as [[lh1 ah1] [st1 [t1 [t2 [E1 [E2 _]]]]]].
    cbn beta iota in E2.
    pose proof (train_step_spec epoch n idx lh ah inputs targets st) as Hs.
    rewrite E1 in Hs.
    specialize (Hmix inputs targets Hi). cbn in Hi, Ht.
    destruct (mix_forward C inputs targets) as [[[[mode inputs'] ta] tb] lam].
    destruct Hs as [ind [Hind [-> _]]].
    destruct (eq_float_ok _ _ _ (nonempty_map _ _ (nonempty_map _ _ Hmix)) Ht Hind)
      as [Hne Hf].
    assert (Hacc : acc_ok (tensor_mean ind)) by exact (tensor_mean_in01 _ Hne Hf).
    destruct (IH (S idx) lh1 (ah ++ [tensor_mean ind]) st1 lh' ah') as [Hf' Hl'].
    + unfold res_of. rewrite E2. reflexivity.
    + apply Forall_app. split; [exact Hah|constructor; [exact Hacc|constructor]].
    + split; [exact Hf'|]. rewrite Hl', length_app. cbn. lia.
Qed.

Lemma valid_batches_acc m bs (Hb : Forall batch_nonempty bs) :
  forall lh ah st lh' ah',
  res_of (valid_batches m lh ah bs) st = Some (lh', ah') ->
  Forall acc_ok ah ->
  Forall acc_ok ah' /\ (List.length ah' = List.length ah + List.length bs)%nat.
Proof.
  induction Hb as [|[inputs targets] bs [Hi Ht] Hbs IH];
    intros lh ah st lh' ah' Hr Hah.
  - cbn in Hr. inversion Hr; subst. split; [assumption|cbn; lia].
  - unfold res_of in Hr. cbn [valid_batches] in Hr.
    destruct (bind _ _ st) as [[r s] t] eqn:E. subst r.
    apply bind_some_inv in E as [[lh1 ah1] [st1 [t1 [t2 [E1 [E2 _]]]]]].
    cbn beta iota in E2. cbn in Hi, Ht.
    unfold valid_step, bind, get, emit, ret in E1. cbn in E1.
    destruct (batch_acc _ targets _) as [[[acc|] s2] t3] eqn:Ea; [|discriminate].
    injection E1 as _ Hah1 _ _.
    assert (Hacc : acc_ok acc) by exact (batch_acc_ok _ _ _ _ _ _ (nonempty_map _ _ Hi) Ht Ea).
    destruct (IH lh1 ah1 st1 lh' ah') as [Hf' Hl']; rewrite <- ?Hah1 in *.
    + unfold res_of. rewrite E2. reflexivity.
    + apply Forall_app. split; [exact Hah|constructor; [exact Hacc|constructor]].
    + split; [exact Hf'|]. rewrite Hl', length_app. cbn. lia.
Qed.

(** ** Training and validation leave the best metrics alone *)

Definition bests (st : Trainer) : Q * Q := (best_model_metric st, best_model_ema_metric st).

Lemma train_batches_keeps_bests epoch n bs :
  forall idx lh ah, keeps bests (train_batches epoch n idx lh ah bs).
Proof.
  induction bs as [|b bs IH]; intros idx lh ah; cbn [train_batches].
  - apply keeps_ret.
  - apply keeps_bind; [|intros [lh' ah']; apply IH].
    unfold train_step, batch_acc, log_due, zero_grad, backward, opt_step, ema_step.
    keeps_tac.
Qed.

Lemma valid_batches_keeps_bests m bs :
  forall lh ah, keeps bests (valid_batches m lh ah bs).
Proof.
  intros lh ah st. apply (f_equal bests (valid_batches_keeps_state m bs lh ah st)).
Qed.

Lemma train_one_epoch_keeps_bests e : keeps bests (train_one_epoch e).
Proof.
  unfold train_one_epoch, set_model_mode. keeps_tac. apply train_batches_keeps_bests.
Qed.

Lemma valid_one_epoch_keeps_bests e isEMA : keeps bests (valid_one_epoch e isEMA).
Proof.
  unfold valid_one_epoch, set_model_mode. keeps_tac. apply valid_batches_keeps_bests.
Qed.

(** ** Events seen by the best-checkpoint logic *)

(** Checkpoint writes and the logged validation accuracies. *)
Definition is_best_evidence (ev : event) : bool :=
  match ev with
  | ESave _ _ _ _ _ => true
  | EScalar tag _ _ => String.eqb tag tag_valid_acc || String.eqb tag tag_valid_ema_acc
  | _ => false
  end.

Lemma train_batches_no_evidence epoch n bs :
  forall idx lh ah, silent is_best_evidence (train_batches epoch n idx lh ah bs).
Proof.
  induction bs as [|b bs IH]; intros idx lh ah; cbn [train_batches].
  - apply silent_ret.
  - apply silent_bind; [|intros [lh' ah']; apply IH].
    unfold train_step, batch_acc, log_due, zero_grad, backward, opt_step, ema_step.
    silent_tac.
Qed.

Lemma valid_batches_no_evidence m bs :
  forall lh ah, silent is_best_evidence (valid_batches m lh ah bs).
Proof.
  induction bs as [|b bs IH]; intros lh ah; cbn [valid_batches].
  - apply silent_ret.
  - apply silent_bind; [|intros [lh' ah']; apply IH].
    unfold valid_step, batch_acc. silent_tac.
Qed.

Lemma train_one_epoch_no_evidence e : silent is_best_evidence (train_one_epoch e).
Proof.
  unfold train_one_epoch, set_model_mode. silent_tac. apply train_batches_no_evidence.
Qed.

Lemma valid_one_epoch_no_evidence e isEMA : silent is_best_evidence (valid_one_epoch e isEMA).
Proof.
  unfold valid_one_epoch, set_model_mode. silent_tac. apply valid_batches_no_evidence.
Qed.

Lemma in_silent_app (P : event -> bool) ev t l :
  filter P t = [] -> P ev = true -> In ev (t ++ l) -> In ev l.
Proof.
  intros Ht Hp Hin. apply in_app_or in Hin as [Hin|Hin]; [|exact Hin].
  assert (In ev (filter P t)) by (apply filter_In; auto). rewrite Ht in H. contradiction.
Qed.

Lemma in_silent (P : event -> bool) ev t :
  filter P t = [] -> P ev = true -> ~ In ev t.
Proof.
  intros Ht Hp Hin. apply (in_silent_app P ev t [] Ht Hp). rewrite app_nil_r. exact Hin.
Qed.

Lemma gt_nan_true a b : gt_nan a b = true <-> exists x, a = Some x /\ b < x.
Proof.
  destruct a as [x|]; cbn; split.
  - intros H. exists x. split; [reflexivity|].
    apply Qnot_le_lt. intros Hle. apply Qle_bool_iff in Hle. rewrite Hle in H. discriminate.
  - intros [y [[= <-] Hlt]]. destruct (Qle_bool x b) eqn:E; [|reflexivity].
    apply Qle_bool_iff in E. exfalso. exact (Qlt_not_le _ _ Hlt E).
  - discriminate.
  - intros [y [H _]]. discriminate.
Qed.

(** Symbolic execution of one epoch of [run], the three method calls kept opaque. *)
Ltac exec_run_epoch E1 E2 E3 :=
  unfold run_epoch, write_log, bind, get, modify, emit, ret;
  cbn -[train_one_epoch valid_one_epoch];
  destruct (train_one_epoch _ _) as [[[?tm|] ?st1] ?t1] eqn:E1; cbn -[valid_one_epoch];
  [ destruct (valid_one_epoch _ false _) as [[[?vm|] ?st2] ?t2] eqn:E2;
    cbn -[valid_one_epoch];
    [ destruct (valid_one_epoch _ true _) as [[[?vem|] ?st3] ?t3] eqn:E3; cbn | ]
  | ].

Lemma bests_after_train e st st1 r t1 :
  train_one_epoch e st = (r, st1, t1) -> bests st1 = bests st.
Proof.
  intros E. rewrite <- (st_of_eq _ _ _ _ _ E). apply train_one_epoch_keeps_bests.
Qed.

Lemma bests_after_valid e b st st1 r t1 :
  valid_one_epoch e b st = (r, st1, t1) -> bests st1 = bests st.
Proof.
  intros E. rewrite <- (st_of_eq _ _ _ _ _ E). apply valid_one_epoch_keeps_bests.
Qed.

Lemma qle_bool_false_lt a b : Qle_bool a b = false -> b < a.
Proof.
  intros H. apply Qnot_le_lt. intros Hle. apply Qle_bool_iff in Hle. congruence.
Qed.

Ltac bests_chain :=
  repeat match goal with
  | H : train_one_epoch _ _ = _ |- _ => apply bests_after_train in H
  | H : valid_one_epoch _ _ _ = _ |- _ => apply bests_after_valid in H
  end;
  unfold bests in *; cbn in *;
  repeat match goal with H : (_, _) = (_, _) |- _ => injection H as ?H ?H end.

Ltac rw_bests :=
  cbn in *;
  repeat match goal with
  | H : best_model_metric ?a = best_model_metric ?b |- _ => progress rewrite H in *
  | H : best_model_ema_metric ?a = best_model_ema_metric ?b |- _ => progress rewrite H in *
  end.

Lemma train_no_evidence_eq e st r st' t :
  train_one_epoch e st = (r, st', t) -> filter is_best_evidence t = [].
Proof. intros E. rewrite <- (tr_of_eq _ _ _ _ _ E). apply train_one_epoch_no_evidence. Qed.

Lemma valid_no_evidence_eq e b st r st' t :
  valid_one_epoch e b st = (r, st', t) -> filter is_best_evidence t = [].
Proof. intros E. rewrite <- (tr_of_eq _ _ _ _ _ E). apply valid_one_epoch_no_evidence. Qed.

(** Drops from [In ev (a :: b :: t1 ++ ... ++ l)] the prefix events and the
    traces [ti] that contain no [is_best_evidence] event. *)
Ltac strip_evidence H :=
  destruct H as [H|[H|H]]; [discriminate H|discriminate H|];
  repeat match goal with
  | F : filter is_best_evidence ?t = [], H' : In ?ev _ |- _ =>
      constr_eq H H';
      first [ apply (in_silent_app is_best_evidence ev t _ F eq_refl) in H
            | exfalso; exact (in_silent is_best_evidence ev t F eq_refl H) ]
  end.

(** ** Phases of an epoch of [run] *)

Inductive phase :=
| PhSched (n : nat)
| PhCall (c : call)
| PhGc
| PhCompare
| PhSave (epoch : nat).

Definition phase_of (ev : event) : list phase :=
  match ev with
  | ESchedStep n => [PhSched n]
  | ECall c => [PhCall c]
  | EGc => [PhGc]
  | ECompare => [PhCompare]
  | ESave e _ _ _ _ => [PhSave e]
  | _ => []
  end.

Definition phases (t : list event) : list phase := flat_map phase_of t.

Definition is_phase (ev : event) : bool :=
  match phase_of ev with [] => false | _ => true end.

(** Scheduler step, training, validation, EMA validation, [gc.collect()],
    best-metric comparison, checkpoint save, epoch-level logging. *)
Definition epoch_phases (e : nat) : list phase :=
  [PhSched (S e); PhCall (CallTrain e); PhCall (CallValid e false);
   PhCall (CallValid e true); PhGc; PhCompare; PhSave e; PhCall (CallWriteLog e)].

Lemma phases_app t1 t2 : phases (t1 ++ t2) = phases t1 ++ phases t2.
Proof. apply flat_map_app. Qed.

Lemma phases_silent t : filter is_phase t = [] -> phases t = [].
Proof.
  induction t as [|ev t IH]; [reflexivity|].
  cbn. destruct ev; cbn; try discriminate; exact IH.
Qed.

Lemma tr_of_emit_bind {A} ev (k : M A) st :
  tr_of (bind (emit ev) (fun _ => k)) st = ev :: tr_of k st.
Proof. unfold tr_of, bind, emit. destruct (k st) as [[r s] t]. reflexivity. Qed.

Lemma train_batches_no_phase epoch n bs :
  forall idx lh ah, silent is_phase (train_batches epoch n idx lh ah bs).
Proof.
  induction bs as [|b bs IH]; intros idx lh ah; cbn [train_batches].
  - apply silent_ret.
  - apply silent_bind; [|intros [lh' ah']; apply IH].
    unfold train_step, batch_acc, log_due, zero_grad, backward, opt_step, ema_step.
    silent_tac.
Qed.

Lemma valid_batches_no_phase m bs :
  forall lh ah, silent is_phase (valid_batches m lh ah bs).
Proof.
  induction bs as [|b bs IH]; intros lh ah; cbn [valid_batches].
  - apply silent_ret.
  - apply silent_bind; [|intros [lh' ah']; apply IH].
    unfold valid_step, batch_acc. silent_tac.
Qed.

Lemma train_one_epoch_phases e st :
  phases (tr_of (train_one_epoch e) st) = [PhCall (CallTrain e)].
Proof.
  unfold train_one_epoch. rewrite tr_of_emit_bind. cbn [phases flat_map phase_of app].
  f_equal. apply phases_silent. unfold set_model_mode. silent_tac.
  apply train_batches_no_phase.
Qed.

Lemma valid_one_epoch_phases e b st :
  phases (tr_of (valid_one_epoch e b) st) = [PhCall (CallValid e b)].
Proof.
  unfold valid_one_epoch. rewrite tr_of_emit_bind. cbn [phases flat_map phase_of app].
  f_equal. apply phases_silent. unfold set_model_mode. silent_tac.
  apply valid_batches_no_phase.
Qed.

Lemma run_epoch_phases e st st' t :
  run_epoch e st = (Some tt, st', t) -> phases t = epoch_phases e.
Proof.
  exec_run_epoch E1 E2 E3; intros H; try discriminate H.
  injection H as _ <-.
  pose proof (train_one_epoch_phases e (set_lr st (sched_lr C (S e)))) as P1.
  pose proof (valid_one_epoch_phases e false st1) as P2.
  pose proof (valid_one_epoch_phases e true st2) as P3.
  rewrite (tr_of_eq _ _ _ _ _ E1) in P1. rewrite (tr_of_eq _ _ _ _ _ E2) in P2.
  rewrite (tr_of_eq _ _ _ _ _ E3) in P3.
  unfold phases in *. cbn [flat_map phase_of app].
  rewrite !flat_map_app, P1, P2, P3. reflexivity.
Qed.

Lemma run_loop_segments es :
  forall st, res_of (run_loop es) st = Some tt ->
  exists segs,
    List.length segs = List.length es /\
    tr_of (run_loop es) st = List.concat segs /\
    Forall2 (fun e seg => phases seg = epoch_phases e) es segs.
Proof.
  induction es as [|e es IH]; intros st Hok.
  - exists []. repeat split; constructor.
  - unfold res_of, tr_of in *. cbn [run_loop] in *.
    destruct (bind _ _ st) as [[r s] t] eqn:E. subst r.
    apply bind_some_inv in E as [[] [st1 [t1 [t2 [E1 [E2 ->]]]]]].
    destruct (IH st1) as [segs [Hl [Ht Hf]]].
    { unfold res_of. rewrite E2. reflexivity. }
    rewrite E2 in Ht.
    exists (t1 :: segs). cbn. repeat split.
    + congruence.
    + rewrite Ht. reflexivity.
    + constructor; [exact (run_epoch_phases e st st1 t1 E1)|exact Hf].
Qed.

(** C10: [valid_one_epoch] changes nothing in the trainer except the mode
    of the model it evaluates, which it puts in eval mode: [log_iter], the
    best metrics, the parameters, the gradients and every other field come
    out as they went in (on success and on an exception alike). *)
Theorem valid_one_epoch_frame (e : nat) (isEMA : bool) (st : Trainer) :
  st_of (valid_one_epoch e isEMA) st = set_mode st (valid_model isEMA) EvalMode.
Proof.
  set (st0 := set_mode st (valid_model isEMA) EvalMode).
  pose proof (valid_batches_keeps_state (valid_model isEMA) (valid_loader st0) [] [] st0) as H.
  unfold st_of in *. unfold valid_one_epoch, set_model_mode, bind, emit, modify, get, ret.
  cbn -[valid_batches]. fold st0.
  destruct (valid_batches (valid_model isEMA) [] [] (valid_loader st0) st0)
    as [[[[lh ah]|] s] t]; cbn in *; exact H.
Qed.

(** C1 (code behaviour): [valid_one_epoch epoch isEMA] puts in eval mode,
    and runs over the validation loader, the model selected by
    [self.model if isEMA else self.model_ema]: the live model when [isEMA]
    is true and the EMA model when it is false, the opposite of what its
    caller [run] ([valid_ema_metrics = self.valid_one_epoch(epoch, isEMA=True)])
    and the flag's name intend. *)
Theorem valid_one_epoch_model (e : nat) (isEMA : bool) (st : Trainer) :
  exists rest,
    tr_of (valid_one_epoch e isEMA) st =
      ECall (CallValid e isEMA) :: EText (MsgBanner "Validation") ::
      EModeSet (if isEMA then Live else Ema) EvalMode :: rest /\
    (forall m, In (EForward m) rest -> m = (if isEMA then Live else Ema)).
Proof.
  set (m0 := valid_model isEMA).
  set (st0 := set_mode st m0 EvalMode).
  pose proof (valid_batches_forwards m0 (valid_loader st0) [] [] st0) as H.
  unfold tr_of in *. unfold valid_one_epoch, set_model_mode, bind, emit, modify, get, ret.
  cbn -[valid_batches]. fold m0 st0.
  destruct (valid_batches m0 [] [] (valid_loader st0) st0)
    as [[[[lh ah]|] s] t]; cbn in *.
  - exists (t ++ [EText (MsgFinish (np_mean ah) (np_mean lh))]). split; [reflexivity|].
    intros m Hin. apply in_app_or in Hin as [Hin|[Hin|[]]]; [|discriminate].
    exact (filter_nil_forwards m0 t H m Hin).
  - exists t. split; [reflexivity|].
    exact (filter_nil_forwards m0 t H).
Qed.

(** C9: on a loader with no batches, [valid_one_epoch] and
    [train_one_epoch] return the mean of an empty history: the Accuracy and
    the Loss are NaN ([None]), so the Accuracy is not a number in [0, 1]. *)
Theorem empty_loader_nan (e : nat) (isEMA : bool) (st : Trainer) :
  (valid_loader st = [] ->
   res_of (valid_one_epoch e isEMA) st = Some {| Accuracy := None; Loss := None |}) /\
  (train_loader st = [] ->
   res_of (train_one_epoch e) st = Some {| Accuracy := None; Loss := None |}).
Proof.
  split; intros H.
  - unfold res_of, valid_one_epoch, set_model_mode, bind, emit, modify, get, ret.
    cbn. destruct (valid_model isEMA); cbn; rewrite H; reflexivity.
  - unfold res_of, train_one_epoch, set_model_mode, bind, emit, modify, get, ret.
    cbn. rewrite H. reflexivity.
Qed.


(** C8: when [max_epoch = start_epoch], [run] only performs the initial
    dummy [zero_grad()] / [step()] pair: no epoch, no checkpoint write, and
    the best metrics and [log_iter] are unchanged. *)
Theorem run_no_epochs (st : Trainer) (H : max_epoch st = start_epoch st) :
  let '(r, st', t) := run st in
  r = Some tt /\ t = [EZeroGrad; EOptStep] /\
  best_model_metric st' = best_model_metric st /\
  best_model_ema_metric st' = best_model_ema_metric st /\
  log_iter st' = log_iter st.
Proof.
  unfold run, epoch_range, zero_grad, opt_step, bind, get, modify, emit, ret. cbn.
  rewrite H, Nat.sub_diag. cbn. repeat split.
Qed.

(** C4: in a completed [train_one_epoch], the forward passes, optimiser calls
    and EMA updates are, in order, exactly [forward; zero_grad; backward;
    step; model_ema.update()] once per batch of the training loader: the EMA
    update is called exactly once per batch, right after that batch's
    optimiser step. *)
Theorem train_one_epoch_ema_per_batch (e : nat) (st : Trainer)
    (Hok : res_of (train_one_epoch e) st <> None) :
  filter is_train_op (tr_of (train_one_epoch e) st) =
  List.concat (List.repeat batch_ops (List.length (train_loader st))).
Proof.
  pose proof (train_batches_ops e (List.length (train_loader st)) (train_loader st) 0 [] []
                (set_live_mode st TrainMode)) as Hb.
  unfold res_of, tr_of in *.
  unfold train_one_epoch, set_model_mode, bind, emit, modify, get, ret in *.
  cbn -[train_batches] in *.
  destruct (train_batches e (List.length (train_loader st)) 0 [] [] (train_loader st)
              (set_live_mode st TrainMode))
    as [[[[lh ah]|] s] t]; [|congruence].
  cbn. rewrite filter_app, Hb by discriminate. rewrite app_nil_r. reflexivity.
Qed.


(** C6: when a training or validation epoch over a non-empty loader
    completes (every batch holding at least one sample, and the mixing
    augmentation keeping a non-empty batch non-empty), the returned Accuracy
    is a number in [0, 1]. *)
Theorem epoch_accuracy_in_range (e : nat) (isEMA : bool) (st : Trainer) (m : metrics)
    (Hmix : mix_keeps_nonempty)
    (H : (train_loader st <> [] /\ Forall batch_nonempty (train_loader st) /\
          res_of (train_one_epoch e) st = Some m) \/
         (valid_loader st <> [] /\ Forall batch_nonempty (valid_loader st) /\
          res_of (valid_one_epoch e isEMA) st = Some m)) :
  exists a, Accuracy m = Some a /\ 0 <= a /\ a <= 1.
Proof.
  destruct H as [[Hne [Hb Hr]] | [Hne [Hb Hr]]].
  - unfold res_of, train_one_epoch, set_model_mode, bind, emit, modify, get, ret in Hr.
    cbn -[train_batches] in Hr.
    destruct (train_batches e (List.length (train_loader st)) 0 [] [] (train_loader st)
                (set_live_mode st TrainMode)) as [[[[lh ah]|] s] t] eqn:E; [|discriminate].
    injection Hr as <-. cbn [Accuracy].
    destruct (train_batches_acc e (List.length (train_loader st)) _ Hmix Hb 0 [] []
                (set_live_mode st TrainMode) lh ah) as [Hf Hl].
    + unfold res_of. rewrite E. reflexivity.
    + constructor.
    + apply np_mean_ok; [|exact Hf].
      intros ->. cbn in Hl. destruct (train_loader st); [congruence|discriminate].
  - unfold res_of, valid_one_epoch, set_model_mode, bind, emit, modify, get, ret in Hr.
    cbn -[valid_batches] in Hr.
    replace (valid_loader (set_mode st (valid_model isEMA) EvalMode)) with (valid_loader st)
      in Hr by (destruct (valid_model isEMA); reflexivity).
    destruct (valid_batches (valid_model isEMA) [] [] (valid_loader st)
                (set_mode st (valid_model isEMA) EvalMode)) as [[[[lh ah]|] s] t] eqn:E;
      [|discriminate].
    injection Hr as <-. cbn [Accuracy].
    destruct (valid_batches_acc (valid_model isEMA) _ Hb [] []
                (set_mode st (valid_model isEMA) EvalMode) lh ah) as [Hf Hl].
    + unfold res_of. rewrite E. reflexivity.
    + constructor.
    + apply np_mean_ok; [|exact Hf].
      intros ->. cbn in Hl. destruct (valid_loader st); [congruence|discriminate].
Qed.


(** C3: every epoch of [run] leaves [best_model_metric] and
    [best_model_ema_metric] greater than or equal to their values before it. *)
Theorem run_epoch_bests_monotone (e : nat) (st : Trainer) :
  let '(_, st', _) := run_epoch e st in
  best_model_metric st <= best_model_metric st' /\
  best_model_ema_metric st <= best_model_ema_metric st'.
Proof.
  exec_run_epoch E1 E2 E3; bests_chain; rw_bests.
  all: try (split; apply Qle_refl).
  destruct (Accuracy vm) as [a|]; destruct (Accuracy vem) as [b|]; cbn [gt_nan];
    repeat (cbn; rw_bests;
            match goal with |- context [Qle_bool ?x ?y] => destruct (Qle_bool x y) eqn:? end);
    rw_bests; split;
    first [apply Qle_refl | apply Qlt_le_weak, qle_bool_false_lt; assumption].
Qed.


(** C5 (amended): on an iteration of the training loop where
    [log_iter % log_freq == 0], the metrics sink receives the iteration's
    own accuracy and loss (the values just appended to the histories) under
    [Train/Accuracy_iter] and [Train/Loss_iter] at step [log_iter], and the
    text log receives the running means of the epoch's loss and accuracy
    histories together with the current learning rate; nothing else is
    logged, in particular no learning-rate scalar. *)
Theorem train_iteration_logging epoch n idx lh ah inputs targets st lh' ah' st' t
    (Hrun : train_step epoch n idx lh ah (inputs, targets) st = (Some (lh', ah'), st', t))
    (Hdue : (Z.of_nat (log_iter st) mod log_freq st = 0)%Z) :
  exists acc loss,
    ah' = ah ++ [acc] /\ lh' = lh ++ [Some loss] /\
    filter is_log t =
      [EScalar tag_train_acc_iter acc (log_iter st);
       EScalar tag_train_loss_iter (Some loss) (log_iter st);
       EText (MsgTrainIter epoch idx n (np_mean lh') (np_mean ah') (lr st))].
Proof.
  pose proof (train_step_spec epoch n idx lh ah inputs targets st) as Hs.
  rewrite Hrun in Hs.
  destruct (mix_forward C inputs targets) as [[[[mode inputs'] ta] tb] lam].
  destruct Hs as [ind [_ [Ha [Hl [_ [_ Hlog]]]]]].
  rewrite Hdue in Hlog. cbn in Hlog.
  eexists; eexists; split; [exact Ha|]; split; [exact Hl|]. exact Hlog.
Qed.

(** C2: in an epoch of [run], the [is_best] (resp. [is_ema_best]) flag passed
    to [save_checkpoint] is true exactly when the epoch's validation
    accuracy (resp. EMA-validation accuracy), as logged under
    [Valid/Accuracy] (resp. [Valid/EMA_Accuracy]), is a number strictly
    greater than the best metric stored before the epoch. *)
Theorem run_epoch_is_best (e : nat) (st : Trainer) va vea b be x y
    (Hva : In (EScalar tag_valid_acc va e) (tr_of (run_epoch e) st))
    (Hvea : In (EScalar tag_valid_ema_acc vea e) (tr_of (run_epoch e) st))
    (Hsave : In (ESave e b be x y) (tr_of (run_epoch e) st)) :
  (b = true <-> exists a, va = Some a /\ best_model_metric st < a) /\
  (be = true <-> exists a, vea = Some a /\ best_model_ema_metric st < a).
Proof.
  revert Hva Hvea Hsave. unfold tr_of.
  exec_run_epoch E1 E2 E3; intros Hva Hvea Hsave;
  repeat match goal with
  | H : train_one_epoch _ _ = _ |- _ =>
      pose proof (train_no_evidence_eq _ _ _ _ _ H); apply bests_after_train in H
  | H : valid_one_epoch _ _ _ = _ |- _ =>
      pose proof (valid_no_evidence_eq _ _ _ _ _ _ H); apply bests_after_valid in H
  end;
  strip_evidence Hsave; strip_evidence Hva; strip_evidence Hvea.
  unfold tag_lr, tag_train_acc, tag_train_loss, tag_valid_acc, tag_valid_loss,
    tag_valid_ema_acc, tag_valid_ema_loss in Hva, Hvea.
  cbn [In] in Hsave, Hva, Hvea.
  repeat match type of Hsave with _ \/ _ => destruct Hsave as [Hsave|Hsave] end;
    try discriminate Hsave; try contradiction.
  repeat match type of Hva with _ \/ _ => destruct Hva as [Hva|Hva] end;
    try discriminate Hva; try contradiction.
  repeat match type of Hvea with _ \/ _ => destruct Hvea as [Hvea|Hvea] end;
    try discriminate Hvea; try contradiction.
  injection Hsave as <- <- _ _. injection Hva as <-. injection Hvea as <-.
  unfold bests in *.
  repeat match goal with H : (_, _) = (_, _) |- _ => injection H as ?H ?H end.
  rw_bests.
  split; [exact (gt_nan_true _ _)|].
  destruct (gt_nan (Accuracy vm) (best_model_metric st)); [destruct (Accuracy vm)|];
    rw_bests; exact (gt_nan_true _ _).
Qed.


(** C7: a completed [run] consists of the dummy optimiser step followed by
    exactly [max_epoch - start_epoch] epoch segments, one per epoch of
    [range(start_epoch, max_epoch)] in order; each segment goes through
    [scheduler.step(epoch + 1)], [train_one_epoch], [valid_one_epoch(epoch)],
    [valid_one_epoch(epoch, isEMA=True)], [gc.collect()], the best-metric
    comparison, [save_checkpoint] and [write_log], in this order.  (Which
    model each validation call evaluates is the subject of C1.) *)
Theorem run_epochs_in_order (st : Trainer) (Hok : res_of run st = Some tt) :
  exists segs,
    List.length segs = (max_epoch st - start_epoch st)%nat /\
    tr_of run st = [EZeroGrad; EOptStep] ++ List.concat segs /\
    Forall2 (fun e seg => phases seg = epoch_phases e)
            (seq (start_epoch st) (max_epoch st - start_epoch st)) segs.
Proof.
  unfold run, res_of, tr_of, zero_grad, opt_step, bind, get, modify, emit, ret in *.
  cbn -[run_loop] in *.
  set (st0 := set_params (set_grads st None) (params st)) in *.
  destruct (run_loop (seq (start_epoch st) (max_epoch st - start_epoch st)) st0)
    as [[r s] t] eqn:E.
  subst r.
  destruct (run_loop_segments _ st0 (res_of_eq _ _ _ _ _ E)) as [segs [Hl [Ht Hf]]].
  rewrite (tr_of_eq _ _ _ _ _ E) in Ht.
  exists segs. split; [rewrite Hl; apply length_seq|]. split; [|exact Hf].
  rewrite Ht. reflexivity.
Qed.

(** ** The trainer after one training iteration *)

Lemma train_step_state epoch n idx lh ah inputs targets st lh' ah' st' t :
  train_step epoch n idx lh ah (inputs, targets) st = (Some (lh', ah'), st', t) ->
  let '(mode, inputs', ta, tb, lam) := mix_forward C inputs targets in
  let g := grad_of C (params st) mode inputs' ta tb lam in
  let p' := opt_apply C (params st) g in
  st' = set_log_iter (set_ema_params (set_params (set_grads st (Some g)) p')
                                     (ema_update C (ema_params st) p'))
                     (S (log_iter st)).
Proof.
  unfold train_step, batch_acc, log_due, zero_grad, backward, opt_step, ema_step,
    bind, get, modify, emit, ret, raise.
  cbn. destruct (mix_forward C inputs targets) as [[[[mode inputs'] ta] tb] lam]. cbn.
  repeat (split_atom; cbn).
  all: intros H; try discriminate H; injection H as _ _ <- _; reflexivity.
Qed.

Lemma train_frame_refl st : train_frame st st.
Proof. repeat split. Qed.

Lemma train_frame_trans s1 s2 s3 : train_frame s1 s2 -> train_frame s2 s3 -> train_frame s1 s3.
Proof. unfold train_frame. intuition congruence. Qed.

Lemma last_cons_default {A : Type} (x d : A) l : last (x :: l) d = last l x.
Proof.
  revert x d. induction l as [|y l IH]; intros x d; [reflexivity|].
  change (last (y :: l) d = last (y :: l) x). rewrite !IH. reflexivity.
Qed.

Lemma train_batches_state epoch n bs :
  forall idx lh ah st lh' ah' st' t,
  train_batches epoch n idx lh ah bs st = (Some (lh', ah'), st', t) ->
  params st' = last (live_trajectory (params st) bs) (params st) /\
  ema_params st' = fold_left (ema_update C) (live_trajectory (params st) bs) (ema_params st) /\
  log_iter st' = (log_iter st + List.length bs)%nat /\
  train_frame st st'.
Proof.
  induction bs as [|[inputs targets] bs IH]; intros idx lh ah st lh' ah' st' t H.
  - cbn in H. injection H as _ _ <- _. cbn.
    repeat split; try reflexivity. lia.
  - cbn [train_batches] in H.
    apply bind_some_inv in H as [[lh1 ah1] [st1 [t1 [t2 [E1 [E2 _]]]]]].
    cbn beta iota in E2.
    pose proof (train_step_state _ _ _ _ _ _ _ _ _ _ _ _ E1) as Hs.
    destruct (IH _ _ _ _ _ _ _ _ E2) as [Hp [He [Hi Hf]]].
    cbn [live_trajectory].
    destruct (mix_forward C inputs targets) as [[[[mode inputs'] ta] tb] lam].
    cbv beta iota zeta in Hs. subst st1.
    cbn in Hp, He, Hi. cbn [List.length fold_left].
    split; [rewrite Hp, last_cons_default; reflexivity|].
    split; [exact He|]. split; [rewrite Hi; lia|exact Hf].
Qed.

Lemma train_one_epoch_state e st m st' t :
  train_one_epoch e st = (Some m, st', t) ->
  params st' = last (live_trajectory (params st) (train_loader st)) (params st) /\
  ema_params st' =
    fold_left (ema_update C) (live_trajectory (params st) (train_loader st)) (ema_params st) /\
  log_iter st' = (log_iter st + List.length (train_loader st))%nat /\
  train_frame (set_live_mode st TrainMode) st'.
Proof.
  unfold train_one_epoch, set_model_mode, bind, emit, modify, get, ret.
  cbn -[train_batches].
  destruct (train_batches e (List.length (train_loader st)) 0 [] [] (train_loader st)
              (set_live_mode st TrainMode)) as [[[[lh ah]|] s] t0] eqn:E;
    intros H; [|discriminate H].
  injection H as _ <- _.
  exact (train_batches_state _ _ _ _ _ _ _ _ _ _ _ E).
Qed.

Lemma valid_one_epoch_st e isEMA st :
  st_of (valid_one_epoch e isEMA) st = set_mode st (valid_model isEMA) EvalMode.
Proof.
  set (st0 := set_mode st (valid_model isEMA) EvalMode).
  pose proof (valid_batches_keeps_state (valid_model isEMA) (valid_loader st0) [] [] st0) as H.
  unfold st_of in *. unfold valid_one_epoch, set_model_mode, bind, emit, modify, get, ret.
  cbn -[valid_batches]. fold st0.
  destruct (valid_batches (valid_model isEMA) [] [] (valid_loader st0) st0)
    as [[[[lh ah]|] s] t]; cbn in *; exact H.
Qed.

Lemma valid_one_epoch_st_eq e isEMA st r st' t :
  valid_one_epoch e isEMA st = (r, st', t) -> st' = set_mode st (valid_model isEMA) EvalMode.
Proof. intros E. rewrite <- (valid_one_epoch_st e isEMA st), (st_of_eq _ _ _ _ _ E). reflexivity. Qed.

(** The trainer after a completed epoch of [run]. *)
Lemma run_epoch_state e st st' t :
  run_epoch e st = (Some tt, st', t) ->
  log_iter st' = (log_iter st + List.length (train_loader st))%nat /\
  lr st' = sched_lr C (S e) /\
  live_mode st' = EvalMode /\ ema_mode st' = EvalMode /\
  train_loader st' = train_loader st /\ valid_loader st' = valid_loader st /\
  start_epoch st' = start_epoch st /\ max_epoch st' = max_epoch st /\
  log_freq st' = log_freq st.
Proof.
  exec_run_epoch E1 E2 E3; intros H; try discriminate H.
  injection H as <-.
  apply valid_one_epoch_st_eq in E2, E3.
  destruct (train_one_epoch_state _ _ _ _ _ E1) as [_ [_ [Hi Hf]]].
  unfold train_frame in Hf. subst st2 st3. cbn in *.
  destruct (gt_nan _ _); [destruct (Accuracy vm)|]; cbn;
  destruct (gt_nan _ _); try destruct (Accuracy vem); cbn; intuition congruence.
Qed.

Lemma run_loop_log_iter es :
  forall st st' t, run_loop es st = (Some tt, st', t) ->
  log_iter st' = (log_iter st + List.length es * List.length (train_loader st))%nat /\
  train_loader st' = train_loader st.
Proof.
  induction es as [|e es IH]; intros st st' t H.
  - cbn in H. injection H as <- _. cbn. split; [lia|reflexivity].
  - cbn [run_loop] in H.
    apply bind_some_inv in H as [[] [st1 [t1 [t2 [E1 [E2 _]]]]]].
    destruct (run_epoch_state _ _ _ _ E1) as [Hi [_ [_ [_ [Htl _]]]]].
    destruct (IH _ _ _ E2) as [Hi' Htl'].
    rewrite Hi', Hi, Htl. cbn [List.length]. split; [lia|congruence].
Qed.

(** [run] with the dummy optimiser step written out. *)
Lemma run_unfold st :
  run st = let '(r, s, t) := run_loop (epoch_range st) (set_grads st None) in
           (r, s, EZeroGrad :: EOptStep :: t).
Proof.
  unfold run, zero_grad, opt_step, bind, get, modify, emit, ret. cbn -[run_loop].
  change (set_params (set_grads st None) (params st)) with (set_grads st None).
  unfold epoch_range. cbn [start_epoch max_epoch set_grads].
  destruct (run_loop (seq (start_epoch st) (max_epoch st - start_epoch st)) (set_grads st None))
    as [[r s] t]. reflexivity.
Qed.

Lemma run_epoch_bests_le e st :
  let '(_, st', _) := run_epoch e st in
  best_model_metric st <= best_model_metric st' /\
  best_model_ema_metric st <= best_model_ema_metric st'.
Proof.
  exec_run_epoch E1 E2 E3; bests_chain; rw_bests.
  all: try (split; apply Qle_refl).
  destruct (Accuracy vm) as [a|]; destruct (Accuracy vem) as [b|]; cbn [gt_nan];
    repeat (cbn; rw_bests;
            match goal with |- context [Qle_bool ?x ?y] => destruct (Qle_bool x y) eqn:? end);
    rw_bests; split;
    first [apply Qle_refl | apply Qlt_le_weak, qle_bool_false_lt; assumption].
Qed.

Lemma run_loop_bests_le es :
  forall st,
  best_model_metric st <= best_model_metric (st_of (run_loop es) st) /\
  best_model_ema_metric st <= best_model_ema_metric (st_of (run_loop es) st).
Proof.
  induction es as [|e es IH]; intros st.
  - split; apply Qle_refl.
  - pose proof (run_epoch_bests_le e st) as H1.
    unfold st_of in *. cbn [run_loop]. rewrite bind_unfold.
    destruct (run_epoch e st) as [[[[]|] st1] t1]; [|exact H1].
    specialize (IH st1). destruct (run_loop es st1) as [[r st2] t2].
    destruct H1, IH. split; eapply Qle_trans; eassumption.
Qed.

Lemma scalar_steps_app tag t1 t2 :
  scalar_steps tag (t1 ++ t2) = scalar_steps tag t1 ++ scalar_steps tag t2.
Proof. apply flat_map_app. Qed.

Lemma scalar_steps_filter tag t : scalar_steps tag t = scalar_steps tag (filter is_log t).
Proof.
  induction t as [|ev t IH]; [reflexivity|].
  destruct ev; cbn; try exact IH. f_equal. exact IH.
Qed.

Lemma train_step_steps tag epoch n idx lh ah b st lh' ah' st' t
    (Htag : tag = tag_train_acc_iter \/ tag = tag_train_loss_iter) :
  train_step epoch n idx lh ah b st = (Some (lh', ah'), st', t) ->
  scalar_steps tag t = (if log_due_at (log_freq st) (log_iter st) then [log_iter st] else []) /\
  log_iter st' = S (log_iter st) /\ log_freq st' = log_freq st /\
  train_loader st' = train_loader st.
Proof.
  destruct b as [inputs targets]. intros E.
  pose proof (train_step_spec epoch n idx lh ah inputs targets st) as Hs.
  pose proof (train_step_state _ _ _ _ _ _ _ _ _ _ _ _ E) as Hst.
  rewrite E in Hs.
  destruct (mix_forward C inputs targets) as [[[[mode inputs'] ta] tb] lam].
  cbv beta iota zeta in Hst. subst st'.
  destruct Hs as [ind [_ [_ [_ [_ [_ Hlog]]]]]].
  split; [|repeat split].
  rewrite scalar_steps_filter, Hlog. unfold log_due_at.
  destruct (Z.eqb _ 0); [|reflexivity].
  destruct Htag as [-> | ->]; reflexivity.
Qed.

Lemma train_batches_steps tag epoch n bs
    (Htag : tag = tag_train_acc_iter \/ tag = tag_train_loss_iter) :
  forall idx lh ah st lh' ah' st' t,
  train_batches epoch n idx lh ah bs st = (Some (lh', ah'), st', t) ->
  scalar_steps tag t =
    filter (log_due_at (log_freq st)) (seq (log_iter st) (List.length bs)).
Proof.
  induction bs as [|b bs IH]; intros idx lh ah st lh' ah' st' t H.
  - cbn in H. injection H as _ _ _ <-. reflexivity.
  - cbn [train_batches] in H.
    apply bind_some_inv in H as [[lh1 ah1] [st1 [t1 [t2 [E1 [E2 ->]]]]]].
    cbn beta iota in E2.
    destruct (train_step_steps tag _ _ _ _ _ _ _ _ _ _ _ Htag E1) as [Hs [Hi [Hf _]]].
    rewrite scalar_steps_app, Hs, (IH _ _ _ _ _ _ _ _ E2), Hi, Hf.
    cbn [List.length seq filter]. destruct (log_due_at _ _); reflexivity.
Qed.

Lemma train_one_epoch_steps tag e st m st' t
    (Htag : tag = tag_train_acc_iter \/ tag = tag_train_loss_iter) :
  train_one_epoch e st = (Some m, st', t) ->
  scalar_steps tag t =
    filter (log_due_at (log_freq st)) (seq (log_iter st) (List.length (train_loader st))).
Proof.
  unfold train_one_epoch, set_model_mode, bind, emit, modify, get, ret.
  cbn -[train_batches].
  destruct (train_batches e (List.length (train_loader st)) 0 [] [] (train_loader st)
              (set_live_mode st TrainMode)) as [[[[lh ah]|] s] t0] eqn:E;
    intros H; [|discriminate H].
  injection H as _ _ <-.
  pose proof (train_batches_steps _ _ _ _ Htag _ _ _ _ _ _ _ _ E) as Hs.
  cbn [log_freq log_iter set_live_mode] in Hs. rewrite <- Hs.
  unfold scalar_steps. cbn [flat_map app]. rewrite flat_map_app. cbn.
  rewrite app_nil_r. reflexivity.
Qed.

Lemma train_step_zero_freq epoch n idx lh ah b st :
  log_freq st = 0%Z -> res_of (train_step epoch n idx lh ah b) st = None.
Proof.
  intros H. destruct b as [inputs targets].
  unfold res_of, train_step, batch_acc, log_due, zero_grad, backward, opt_step, ema_step,
    bind, get, modify, emit, ret, raise.
  cbn. destruct (mix_forward C inputs targets) as [[[[mode inputs'] ta] tb] lam].
  cbn. repeat (split_atom; cbn). all: try reflexivity.
  all: match goal with E : Z.eqb _ 0 = false |- _ => rewrite H in E; discriminate E end.
Qed.

Lemma train_one_epoch_zero_freq e st :
  log_freq st = 0%Z -> train_loader st <> [] ->
  res_of (train_one_epoch e) st = None /\
  filter is_train_op (tr_of (train_one_epoch e) st) = batch_ops.
Proof.
  intros H Hne. destruct (train_loader st) as [|b bs] eqn:Etl; [congruence|].
  pose proof (train_step_zero_freq e (S (List.length bs)) 0 [] [] b
                (set_live_mode st TrainMode) H) as Hz.
  pose proof (train_step_ops e (S (List.length bs)) 0 [] [] b (set_live_mode st TrainMode)) as Ho.
  unfold res_of, tr_of in *.
  unfold train_one_epoch, set_model_mode, bind, emit, modify, get, ret.
  cbn -[train_step]. rewrite Etl. cbn [train_batches List.length]. rewrite bind_unfold.
  destruct (train_step e (S (List.length bs)) 0 [] [] b (set_live_mode st TrainMode))
    as [[[?|] s] t]; [discriminate Hz|].
  cbn. split; [reflexivity|]. exact Ho.
Qed.

Lemma valid_batches_congr m bs :
  forall lh ah st1 st2,
  model_mode_of st1 m = model_mode_of st2 m -> model_params st1 m = model_params st2 m ->
  res_of (valid_batches m lh ah bs) st1 = res_of (valid_batches m lh ah bs) st2 /\
  tr_of (valid_batches m lh ah bs) st1 = tr_of (valid_batches m lh ah bs) st2.
Proof.
  induction bs as [|[inputs targets] bs IH]; intros lh ah st1 st2 Hm Hp.
  - split; reflexivity.
  - unfold res_of, tr_of in *. cbn [valid_batches].
    unfold valid_step, batch_acc, bind, get, emit, ret, raise. cbn -[valid_batches].
    rewrite Hm, Hp.
    destruct (eq_float _ targets); cbn -[valid_batches]; [|split; reflexivity].
    specialize (IH (lh ++ [Some (criterion C (map (forward C (model_mode_of st2 m)
                                                     (model_params st2 m)) inputs) targets)])
                   (ah ++ [tensor_mean l]) st1 st2 Hm Hp).
    destruct (valid_batches m _ _ bs st1) as [[r1 s1] t1].
    destruct (valid_batches m _ _ bs st2) as [[r2 s2] t2].
    destruct IH as [-> ->]. split; reflexivity.
Qed.

Lemma valid_one_epoch_congr e e' isEMA st1 st2 :
  valid_loader st1 = valid_loader st2 ->
  model_params st1 (valid_model isEMA) = model_params st2 (valid_model isEMA) ->
  res_of (valid_one_epoch e isEMA) st1 = res_of (valid_one_epoch e' isEMA) st2.
Proof.
  intros Hl Hp.
  set (m := valid_model isEMA) in *.
  assert (Hm' : model_mode_of (set_mode st1 m EvalMode) m =
                model_mode_of (set_mode st2 m EvalMode) m) by (destruct m; reflexivity).
  assert (Hp' : model_params (set_mode st1 m EvalMode) m =
                model_params (set_mode st2 m EvalMode) m) by (destruct m; exact Hp).
  assert (Hl' : valid_loader (set_mode st1 m EvalMode) = valid_loader (set_mode st2 m EvalMode))
    by (destruct m; exact Hl).
  destruct (valid_batches_congr m (valid_loader (set_mode st1 m EvalMode)) [] []
              _ _ Hm' Hp') as [Hr _].
  unfold res_of in *.
  unfold valid_one_epoch, set_model_mode, bind, emit, modify, get, ret.
  cbn -[valid_batches]. fold m. rewrite <- Hl'.
  destruct (valid_batches m [] [] (valid_loader (set_mode st1 m EvalMode)) (set_mode st1 m EvalMode))
    as [[[[lh1 ah1]|] s1] t1];
  destruct (valid_batches m [] [] (valid_loader (set_mode st1 m EvalMode)) (set_mode st2 m EvalMode))
    as [[[[lh2 ah2]|] s2] t2]; congruence.
Qed.

Lemma valid_batches_hist m bs :
  forall lh ah st lh' ah' st' t,
  valid_batches m lh ah bs st = (Some (lh', ah'), st', t) ->
  exists accs,
    Forall2 (valid_batch_acc st m) bs accs /\
    ah' = ah ++ accs /\
    lh' = lh ++ map (fun b => Some (criterion C (batch_logits st m b) (snd b))) bs.
Proof.
  induction bs as [|[inputs targets] bs IH]; intros lh ah st lh' ah' st' t H.
  - cbn in H. injection H as <- <- _ _. exists []. rewrite !app_nil_r. repeat split; constructor.
  - cbn [valid_batches] in H.
    apply bind_some_inv in H as [[lh1 ah1] [st1 [t1 [t2 [E1 [E2 _]]]]]].
    cbn beta iota in E2.
    unfold valid_step, batch_acc, bind, get, emit, ret, raise in E1. cbn in E1.
    destruct (eq_float _ targets) as [ind|] eqn:Eq; [|discriminate E1].
    cbn in E1. injection E1 as <- <- <- _.
    destruct (IH _ _ _ _ _ _ _ E2) as [accs [Hf [-> ->]]].
    exists (tensor_mean ind :: accs). split; [|split].
    + constructor; [exists ind; split; [exact Eq|reflexivity]|exact Hf].
    + rewrite <- app_assoc. reflexivity.
    + rewrite <- app_assoc. reflexivity.
Qed.

Lemma eq_float_mismatch (ps ts : list (Label C)) :
  List.length ps <> List.length ts -> List.length ps <> 1%nat -> List.length ts <> 1%nat ->
  eq_float ps ts = None.
Proof.
  intros Hne Hp Ht. unfold eq_float.
  apply Nat.eqb_neq in Hne. rewrite Hne.
  destruct ps as [|p [|p' ps]]; [|cbn in Hp; congruence|];
  destruct ts as [|t [|t' ts]]; cbn in Ht; congruence.
Qed.

Lemma valid_batches_raise m bs b :
  In b bs ->
  forall lh ah st,
  eq_float (map (argmax C) (batch_logits st m b)) (snd b) = None ->
  res_of (valid_batches m lh ah bs) st = None.
Proof.
  induction bs as [|b0 bs IH]; intros Hin lh ah st Hb; [destruct Hin|].
  unfold res_of. cbn [valid_batches]. rewrite bind_unfold.
  destruct b0 as [inputs targets].
  unfold valid_step, batch_acc, bind, get, emit, ret, raise. cbn -[valid_batches].
  destruct Hin as [<-|Hin].
  - unfold batch_logits in Hb. cbn in Hb. rewrite Hb. reflexivity.
  - destruct (eq_float _ targets); cbn -[valid_batches]; [|reflexivity].
    specialize (IH Hin (lh ++ [Some (criterion C (map (forward C (model_mode_of st m)
                                                        (model_params st m)) inputs) targets)])
                   (ah ++ [tensor_mean l]) st Hb).
    unfold res_of in IH. destruct (valid_batches m _ _ bs st) as [[r s] t]. cbn in *.
    rewrite IH. reflexivity.
Qed.

Lemma qmax_code b a : Qmax b a = if Qle_bool a b then b else a.
Proof.
  unfold Qmax, GenericMinMax.gmax. destruct (b ?= a) eqn:E.
  - apply Qeq_alt in E. replace (Qle_bool a b) with true; [reflexivity|].
    symmetry. apply Qle_bool_iff. rewrite E. apply Qle_refl.
  - apply Qlt_alt in E. destruct (Qle_bool a b) eqn:F; [|reflexivity].
    apply Qle_bool_iff in F. exfalso. exact (Qlt_not_le _ _ E F).
  - apply Qgt_alt in E. replace (Qle_bool a b) with true; [reflexivity|].
    symmetry. apply Qle_bool_iff. apply Qlt_le_weak. exact E.
Qed.

Lemma gt_nan_update (v : option Q) (b : Q) :
  (if gt_nan v b then match v with Some a => a | None => b end else b) =
  match v with Some a => Qmax b a | None => b end.
Proof. destruct v as [a|]; cbn; [|reflexivity]. rewrite qmax_code. destruct (Qle_bool a b); reflexivity. Qed.

Lemma train_batches_no_output epoch n bs :
  forall idx lh ah, silent is_epoch_output (train_batches epoch n idx lh ah bs).
Proof.
  induction bs as [|b bs IH]; intros idx lh ah; cbn [train_batches].
  - apply silent_ret.
  - apply silent_bind; [|intros [lh' ah']; apply IH].
    unfold train_step, batch_acc, log_due, zero_grad, backward, opt_step, ema_step.
    silent_tac.
Qed.

Lemma valid_batches_no_output m bs :
  forall lh ah, silent is_epoch_output (valid_batches m lh ah bs).
Proof.
  induction bs as [|b bs IH]; intros lh ah; cbn [valid_batches].
  - apply silent_ret.
  - apply silent_bind; [|intros [lh' ah']; apply IH].
    unfold valid_step, batch_acc. silent_tac.
Qed.

Lemma train_one_epoch_no_output e st r st' t :
  train_one_epoch e st = (r, st', t) -> filter is_epoch_output t = [].
Proof.
  intros E. rewrite <- (tr_of_eq _ _ _ _ _ E).
  assert (Hs : silent is_epoch_output (train_one_epoch e)).
  { unfold train_one_epoch, set_model_mode. silent_tac. apply train_batches_no_output. }
  apply Hs.
Qed.

Lemma valid_one_epoch_no_output e b st r st' t :
  valid_one_epoch e b st = (r, st', t) -> filter is_epoch_output t = [].
Proof.
  intros E. rewrite <- (tr_of_eq _ _ _ _ _ E).
  assert (Hs : silent is_epoch_output (valid_one_epoch e b)).
  { unfold valid_one_epoch, set_model_mode. silent_tac. apply valid_batches_no_output. }
  apply Hs.
Qed.

Lemma filter_silent_app (P : event -> bool) t l :
  filter P t = [] -> filter P (t ++ l) = filter P l.
Proof. intros H. rewrite filter_app, H. reflexivity. Qed.

Lemma run_epoch_outputs_raw e st st' t :
  run_epoch e st = (Some tt, st', t) ->
  exists tm vm vem,
    filter is_epoch_output t =
      [ESave e (gt_nan (Accuracy vm) (best_model_metric st))
               (gt_nan (Accuracy vem) (best_model_ema_metric st))
               (best_model_metric st') (best_model_ema_metric st');
       EScalar tag_lr (Some (sched_lr C (S e))) e;
       EScalar tag_train_acc (Accuracy tm) e; EScalar tag_train_loss (Loss tm) e;
       EScalar tag_valid_acc (Accuracy vm) e; EScalar tag_valid_loss (Loss vm) e;
       EScalar tag_valid_ema_acc (Accuracy vem) e; EScalar tag_valid_ema_loss (Loss vem) e] /\
    best_model_metric st' =
      (if gt_nan (Accuracy vm) (best_model_metric st)
       then match Accuracy vm with Some a => a | None => best_model_metric st end
       else best_model_metric st) /\
    best_model_ema_metric st' =
      (if gt_nan (Accuracy vem) (best_model_ema_metric st)
       then match Accuracy vem with Some a => a | None => best_model_ema_metric st end
       else best_model_ema_metric st).
Proof.
  exec_run_epoch E1 E2 E3; intros H; try discriminate H.
  injection H as <- <-.
  pose proof (train_one_epoch_no_output _ _ _ _ _ E1) as F1.
  pose proof (valid_one_epoch_no_output _ _ _ _ _ _ E2) as F2.
  pose proof (valid_one_epoch_no_output _ _ _ _ _ _ E3) as F3.
  apply valid_one_epoch_st_eq in E2, E3.
  destruct (train_one_epoch_state _ _ _ _ _ E1) as [_ [_ [_ Hf]]].
  unfold train_frame in Hf. subst st2 st3. cbn in Hf.
  destruct Hf as [_ [_ [Hlr [_ [_ [_ [_ [_ [Hb Hbe]]]]]]]]].
  exists tm, vm, vem.
  cbn [filter is_epoch_output].
  rewrite (filter_silent_app _ _ _ F1), (filter_silent_app _ _ _ F2),
    (filter_silent_app _ _ _ F3).
  rewrite <- Hb, <- Hbe.
  destruct (Accuracy vm) as [a|]; destruct (Accuracy vem) as [a'|]; cbn;
    repeat (match goal with |- context [Qle_bool ?x ?y] => destruct (Qle_bool x y) end; cbn);
    rewrite ?Hlr; repeat split.
Qed.

Lemma run_epoch_outputs e st st' t :
  run_epoch e st = (Some tt, st', t) ->
  exists tm vm vem,
    filter is_epoch_output t =
      [ESave e (gt_nan (Accuracy vm) (best_model_metric st))
               (gt_nan (Accuracy vem) (best_model_ema_metric st))
               (best_model_metric st') (best_model_ema_metric st');
       EScalar tag_lr (Some (sched_lr C (S e))) e;
       EScalar tag_train_acc (Accuracy tm) e; EScalar tag_train_loss (Loss tm) e;
       EScalar tag_valid_acc (Accuracy vm) e; EScalar tag_valid_loss (Loss vm) e;
       EScalar tag_valid_ema_acc (Accuracy vem) e; EScalar tag_valid_ema_loss (Loss vem) e] /\
    best_model_metric st' =
      match Accuracy vm with Some a => Qmax (best_model_metric st) a
                           | None => best_model_metric st end /\
    best_model_ema_metric st' =
      match Accuracy vem with Some a => Qmax (best_model_ema_metric st) a
                            | None => best_model_ema_metric st end.
Proof.
  intros H. destruct (run_epoch_outputs_raw _ _ _ _ H) as [tm [vm [vem [Ho [Hb Hbe]]]]].
  exists tm, vm, vem. rewrite <- !gt_nan_update. repeat split; assumption.
Qed.

Lemma valid_batches_no_side_effect m bs :
  forall lh ah, silent is_side_effect (valid_batches m lh ah bs).
Proof.
  induction bs as [|b bs IH]; intros lh ah; cbn [valid_batches].
  - apply silent_ret.
  - apply silent_bind; [|intros [lh' ah']; apply IH].
    unfold valid_step, batch_acc. silent_tac.
Qed.

Lemma batch_logits_eval st m b :
  batch_logits (set_mode st m EvalMode) m b = eval_logits (model_params st m) b.
Proof. destruct m; reflexivity. Qed.

Lemma valid_one_epoch_hist e isEMA st m :
  res_of (valid_one_epoch e isEMA) st = Some m ->
  let p := model_params st (valid_model isEMA) in
  exists accs,
    Forall2 (fun b a => exists ind,
               eq_float (map (argmax C) (eval_logits p b)) (snd b) = Some ind /\
               a = tensor_mean ind) (valid_loader st) accs /\
    Accuracy m = np_mean accs /\
    Loss m = np_mean (map (fun b => Some (criterion C (eval_logits p b) (snd b)))
                          (valid_loader st)).
Proof.
  intros Hr. cbv zeta.
  set (md := valid_model isEMA) in *.
  assert (Hl : valid_loader (set_mode st md EvalMode) = valid_loader st) by (destruct md; reflexivity).
  unfold res_of, valid_one_epoch, set_model_mode, bind, emit, modify, get, ret in Hr.
  cbn -[valid_batches] in Hr. fold md in Hr. rewrite Hl in Hr.
  destruct (valid_batches md [] [] (valid_loader st) (set_mode st md EvalMode))
    as [[[[lh ah]|] s] t] eqn:E; [|discriminate Hr].
  injection Hr as <-. cbn [Accuracy Loss].
  destruct (valid_batches_hist _ _ _ _ _ _ _ _ _ E) as [accs [Hf [Ha Hlh]]].
  exists accs. rewrite Ha, Hlh. cbn [app]. split; [|split; [reflexivity|]].
  - refine (Forall2_impl _ _ Hf). intros b a [ind [Hind ->]].
    exists ind. rewrite <- batch_logits_eval. split; [exact Hind|reflexivity].
  - f_equal. apply map_ext. intros b. rewrite batch_logits_eval. reflexivity.
Qed.

(** ** Further properties of the trainer *)

(** X1: a freshly constructed trainer starts [log_iter] at 0 and reads
    [log_freq] from [opts] ([common.log_freq], 100 when absent); so in its
    first completed training epoch the per-iteration scalars
    [Train/Accuracy_iter] and [Train/Loss_iter] are written exactly at the
    steps [k] in [0 .. n-1] ([n] training batches) with
    [k % log_freq == 0], in increasing order. *)
Theorem trainer_init_first_epoch_log_steps opts p pe g lm em lr0 tl vl se me kwargs
    e m st' t tag
    (Htag : tag = tag_train_acc_iter \/ tag = tag_train_loss_iter)
    (Hrun : train_one_epoch e (trainer_init opts p pe g lm em lr0 tl vl se me kwargs) =
            (Some m, st', t)) :
  scalar_steps tag t =
    filter (log_due_at (getattr_Z opts "common.log_freq" 100)) (seq 0 (List.length tl)).
Proof. exact (train_one_epoch_steps _ _ _ _ _ _ Htag Hrun). Qed.

(** X2: in a completed [train_one_epoch], the per-iteration scalars
    [Train/Accuracy_iter] and [Train/Loss_iter] are written exactly at the
    steps [k] of [log_iter .. log_iter + n - 1] ([n] training batches) with
    [k % log_freq == 0], in increasing order. *)
Theorem train_one_epoch_log_steps e st m st' t tag
    (Htag : tag = tag_train_acc_iter \/ tag = tag_train_loss_iter)
    (Hrun : train_one_epoch e st = (Some m, st', t)) :
  scalar_steps tag t =
    filter (log_due_at (log_freq st)) (seq (log_iter st) (List.length (train_loader st))).
Proof. exact (train_one_epoch_steps _ _ _ _ _ _ Htag Hrun). Qed.

(** X3: a completed [train_one_epoch] advances [log_iter] by the number of
    training batches, leaves the live model in train mode, and changes
    neither the EMA model's mode, the learning rate, the loaders, the epoch
    bounds, [log_freq] nor the best metrics. *)
Theorem train_one_epoch_frame e st m st' t
    (Hrun : train_one_epoch e st = (Some m, st', t)) :
  log_iter st' = (log_iter st + List.length (train_loader st))%nat /\
  live_mode st' = TrainMode /\ ema_mode st' = ema_mode st /\ lr st' = lr st /\
  train_loader st' = train_loader st /\ valid_loader st' = valid_loader st /\
  start_epoch st' = start_epoch st /\ max_epoch st' = max_epoch st /\
  log_freq st' = log_freq st /\
  best_model_metric st' = best_model_metric st /\
  best_model_ema_metric st' = best_model_ema_metric st.
Proof.
  destruct (train_one_epoch_state _ _ _ _ _ Hrun) as [_ [_ [Hi Hf]]].
  split; [exact Hi|]. exact Hf.
Qed.

(** X4: one training iteration steps the optimiser with the gradient of
    that batch alone ([zero_grad] runs before [backward], so no gradient
    left from earlier is added), and then moves the EMA model towards the
    freshly updated live parameters. *)
Theorem train_step_fresh_gradient epoch n idx lh ah inputs targets st lh' ah' st' t
    (Hrun : train_step epoch n idx lh ah (inputs, targets) st = (Some (lh', ah'), st', t)) :
  let '(mode, inputs', ta, tb, lam) := mix_forward C inputs targets in
  let g := grad_of C (params st) mode inputs' ta tb lam in
  grads st' = Some g /\
  params st' = opt_apply C (params st) g /\
  ema_params st' = ema_update C (ema_params st) (params st').
Proof.
  pose proof (train_step_state _ _ _ _ _ _ _ _ _ _ _ _ Hrun) as Hs.
  destruct (mix_forward C inputs targets) as [[[[mode inputs'] ta] tb] lam].
  cbv beta iota zeta in Hs |- *. subst st'. repeat split.
Qed.

(** X5: after a completed [train_one_epoch], the live parameters are those
    reached by one optimiser step per training batch, in loader order, and
    the EMA parameters are the EMA update folded over the successive live
    parameters, starting from the EMA parameters before the epoch. *)
Theorem train_one_epoch_ema_trajectory e st m st' t
    (Hrun : train_one_epoch e st = (Some m, st', t)) :
  params st' = last (live_trajectory (params st) (train_loader st)) (params st) /\
  ema_params st' =
    fold_left (ema_update C) (live_trajectory (params st) (train_loader st)) (ema_params st).
Proof.
  destruct (train_one_epoch_state _ _ _ _ _ Hrun) as [Hp [He _]]. split; assumption.
Qed.

(** X6: with [log_freq == 0] and a non-empty training loader,
    [train_one_epoch] raises ([self.log_iter % self.log_freq] divides by
    zero), and it does so only after the first batch's forward pass,
    optimiser step and EMA update. *)
Theorem train_one_epoch_zero_log_freq e st
    (Hf : log_freq st = 0%Z) (Hne : train_loader st <> []) :
  res_of (train_one_epoch e) st = None /\
  filter is_train_op (tr_of (train_one_epoch e) st) = batch_ops.
Proof. exact (train_one_epoch_zero_freq e st Hf Hne). Qed.

(** X7: the result of [valid_one_epoch] depends only on the validation
    loader and the parameters of the model it evaluates: not on the epoch
    number, the models' modes, the other model, the gradients, the
    learning rate, the counters or the best metrics. *)
Theorem valid_one_epoch_depends_on_model e e' isEMA st1 st2
    (Hl : valid_loader st1 = valid_loader st2)
    (Hp : model_params st1 (valid_model isEMA) = model_params st2 (valid_model isEMA)) :
  res_of (valid_one_epoch e isEMA) st1 = res_of (valid_one_epoch e' isEMA) st2.
Proof. exact (valid_one_epoch_congr e e' isEMA st1 st2 Hl Hp). Qed.

(** X8: the Accuracy returned by a completed [valid_one_epoch] is the
    unweighted mean of the per-batch accuracies (each the mean over the
    batch of the eval-mode prediction matching the target), and the Loss the
    unweighted mean of the per-batch criterion values: every batch counts
    the same, whatever its size. *)
Theorem valid_one_epoch_batch_mean e isEMA st m
    (Hr : res_of (valid_one_epoch e isEMA) st = Some m) :
  let p := model_params st (valid_model isEMA) in
  exists accs,
    Forall2 (fun b a => exists ind,
               eq_float (map (argmax C) (eval_logits p b)) (snd b) = Some ind /\
               a = tensor_mean ind) (valid_loader st) accs /\
    Accuracy m = np_mean accs /\
    Loss m = np_mean (map (fun b => Some (criterion C (eval_logits p b) (snd b)))
                          (valid_loader st)).
Proof. exact (valid_one_epoch_hist e isEMA st m Hr). Qed.

(** X9: [valid_one_epoch] never calls the optimiser, the EMA update, the
    scheduler, the metrics sink or the checkpoint writer, whether it
    completes or raises. *)
Theorem valid_one_epoch_no_side_effects e isEMA st :
  filter is_side_effect (tr_of (valid_one_epoch e isEMA) st) = [].
Proof.
  assert (Hs : silent is_side_effect (valid_one_epoch e isEMA)).
  { unfold valid_one_epoch, set_model_mode. silent_tac. apply valid_batches_no_side_effect. }
  apply Hs.
Qed.

(** X10: [valid_one_epoch] raises when a batch of the validation loader has
    as many inputs as targets in neither way a broadcast allows: the two
    counts differ and neither is 1 ([logits.argmax(dim=-1) == targets]
    cannot be broadcast). *)
Theorem valid_one_epoch_shape_mismatch e isEMA st inputs targets
    (Hin : In (inputs, targets) (valid_loader st))
    (Hne : List.length inputs <> List.length targets)
    (Hi1 : List.length inputs <> 1%nat) (Ht1 : List.length targets <> 1%nat) :
  res_of (valid_one_epoch e isEMA) st = None.
Proof.
  set (md := valid_model isEMA).
  set (s0 := set_mode st md EvalMode).
  assert (Hl : valid_loader s0 = valid_loader st) by (unfold s0; destruct md; reflexivity).
  assert (Hq : eq_float (map (argmax C) (batch_logits s0 md (inputs, targets)))
                        (snd (inputs, targets)) = None).
  { apply eq_float_mismatch; unfold batch_logits; cbn [fst snd]; rewrite ?length_map;
      assumption. }
  pose proof (valid_batches_raise md (valid_loader st) _ Hin [] [] s0 Hq) as Hr.
  unfold res_of in *. unfold valid_one_epoch, set_model_mode, bind, emit, modify, get, ret.
  cbn -[valid_batches]. fold md s0. rewrite Hl.
  destruct (valid_batches md [] [] (valid_loader st) s0) as [[[?|] s] t];
    [discriminate Hr|reflexivity].
Qed.

Lemma in_epoch_output ev t :
  In ev t -> is_epoch_output ev = true -> In ev (filter is_epoch_output t).
Proof. intros H Hp. apply filter_In. split; assumption. Qed.

(** X11: in a completed epoch of [run], the best metrics after the epoch
    are the maximum of the best metrics before it and the validation
    (resp. EMA-validation) accuracy logged for the epoch, and stay as they
    were when that accuracy is NaN; the checkpoint written in the epoch
    carries these updated best metrics. *)
Theorem run_epoch_best_is_max e st st' t va vea
    (Hrun : run_epoch e st = (Some tt, st', t))
    (Hva : In (EScalar tag_valid_acc va e) t)
    (Hvea : In (EScalar tag_valid_ema_acc vea e) t) :
  best_model_metric st' =
    match va with Some a => Qmax (best_model_metric st) a | None => best_model_metric st end /\
  best_model_ema_metric st' =
    match vea with Some a => Qmax (best_model_ema_metric st) a
                 | None => best_model_ema_metric st end /\
  (forall e' b be x y, In (ESave e' b be x y) t ->
     x = best_model_metric st' /\ y = best_model_ema_metric st').
Proof.
  destruct (run_epoch_outputs _ _ _ _ Hrun) as [tm [vm [vem [Ho [Hb Hbe]]]]].
  apply in_epoch_output in Hva; [|reflexivity].
  apply in_epoch_output in Hvea; [|reflexivity].
  rewrite Ho in Hva, Hvea.
  unfold tag_lr, tag_train_acc, tag_train_loss, tag_valid_acc, tag_valid_loss,
    tag_valid_ema_acc, tag_valid_ema_loss in Hva, Hvea.
  cbn [In] in Hva, Hvea.
  repeat match type of Hva with _ \/ _ => destruct Hva as [Hva|Hva] end;
    try discriminate Hva; try contradiction.
  repeat match type of Hvea with _ \/ _ => destruct Hvea as [Hvea|Hvea] end;
    try discriminate Hvea; try contradiction.
  injection Hva as <-. injection Hvea as <-.
  split; [exact Hb|]. split; [exact Hbe|].
  intros e' b be x y Hs. apply in_epoch_output in Hs; [|reflexivity].
  rewrite Ho in Hs. cbn [In] in Hs.
  destruct Hs as [Hs|Hs]; [injection Hs as _ _ _ <- <-; split; reflexivity|].
  repeat match type of Hs with _ \/ _ => destruct Hs as [Hs|Hs] end;
    try discriminate Hs; contradiction.
Qed.

(** X12: a completed epoch of [run] writes, outside the per-iteration
    training scalars, exactly one checkpoint and then the seven scalars of
    [write_log], all at step [epoch], in the order: learning rate, training
    accuracy and loss, validation accuracy and loss, EMA-validation
    accuracy and loss; the learning rate is the one set by
    [scheduler.step(epoch + 1)]. *)
Theorem run_epoch_outputs_in_order e st st' t
    (Hrun : run_epoch e st = (Some tt, st', t)) :
  exists b be x y (tm vm vem : metrics),
    filter is_epoch_output t =
      [ESave e b be x y;
       EScalar tag_lr (Some (sched_lr C (S e))) e;
       EScalar tag_train_acc (Accuracy tm) e; EScalar tag_train_loss (Loss tm) e;
       EScalar tag_valid_acc (Accuracy vm) e; EScalar tag_valid_loss (Loss vm) e;
       EScalar tag_valid_ema_acc (Accuracy vem) e; EScalar tag_valid_ema_loss (Loss vem) e].
Proof.
  destruct (run_epoch_outputs _ _ _ _ Hrun) as [tm [vm [vem [Ho _]]]].
  do 4 eexists. exists tm, vm, vem. exact Ho.
Qed.

(** X13: a completed epoch of [run] leaves both models in eval mode, the
    learning rate at the value set by [scheduler.step(epoch + 1)], and
    [log_iter] advanced by the number of training batches. *)
Theorem run_epoch_final_state e st st' t
    (Hrun : run_epoch e st = (Some tt, st', t)) :
  live_mode st' = EvalMode /\ ema_mode st' = EvalMode /\
  lr st' = sched_lr C (S e) /\
  log_iter st' = (log_iter st + List.length (train_loader st))%nat.
Proof.
  destruct (run_epoch_state _ _ _ _ Hrun) as [Hi [Hlr [Hl [He _]]]].
  repeat split; assumption.
Qed.

(** X14: the dummy [zero_grad()] / [step()] pair at the start of [run] only
    clears the gradients: the epochs then run from the trainer's own
    parameters, and the trace is the two calls followed by the epochs'. *)
Theorem run_dummy_step st :
  run st = let '(r, s, t) := run_loop (epoch_range st) (set_grads st None) in
           (r, s, EZeroGrad :: EOptStep :: t).
Proof. exact (run_unfold st). Qed.

(** X15: over a whole [run], completed or stopped by an exception, the
    best metrics never decrease. *)
Theorem run_bests_monotone st :
  best_model_metric st <= best_model_metric (st_of run st) /\
  best_model_ema_metric st <= best_model_ema_metric (st_of run st).
Proof.
  pose proof (run_loop_bests_le (epoch_range st) (set_grads st None)) as H.
  unfold st_of in *. rewrite run_unfold.
  destruct (run_loop (epoch_range st) (set_grads st None)) as [[r s] t]. exact H.
Qed.

(** X16: a completed [run] advances [log_iter] by the number of epochs
    times the number of training batches. *)
Theorem run_log_iter st (Hok : res_of run st = Some tt) :
  log_iter (st_of run st) =
    (log_iter st + (max_epoch st - start_epoch st) * List.length (train_loader st))%nat.
Proof.
  unfold res_of, st_of in *. rewrite run_unfold in *.
  destruct (run_loop (epoch_range st) (set_grads st None)) as [[r s] t] eqn:E.
  subst r. destruct (run_loop_log_iter _ _ _ _ E) as [Hi _].
  rewrite Hi. unfold epoch_range. rewrite length_seq. reflexivity.
Qed.

End Trainer.

(** ** A concrete instance

    Samples, labels and logits are naturals; the model predicts its input,
    the mixing augmentation is the identity ("none" mode), the loss is a
    constant, and parameters are integers moved by the optimiser and
    averaged by the EMA wrapper. *)

Definition toyC : Collab := {|
  Sample := nat; Label := nat; Logit := nat; Params := Z; Grad := Z; MixMode := unit;
  label_eqb := Nat.eqb;
  forward := fun _ _ x => x;
  argmax := fun x => x;
  criterion := fun _ _ => 1 # 2;
  mix_forward := fun xs ys => (tt, xs, ys, ys, 1);
  mix_criterion := fun _ crit logits ta _ _ => crit logits ta;
  grad_of := fun _ _ _ _ _ _ => 1%Z;
  grad_add := Z.add;
  opt_apply := Z.sub;
  ema_update := fun s p => ((s + p) / 2)%Z;
  sched_lr := fun n => 1 # Pos.of_nat (S n) |}.

(** Two training batches, two validation batches, epochs 0 and 1, logging
    every iteration. *)
Definition toy_st : Trainer toyC :=
  Build_Trainer toyC 10%Z 10%Z None EvalMode EvalMode (1 # 10)
    ([([1; 2], [1; 3]); ([4], [4])])%nat
    ([([1; 2], [1; 2]); ([3; 3], [1; 3])])%nat
    0 2 0 1%Z 0 0.

(** The same trainer with [max_epoch = start_epoch]. *)
Definition toy_st_no_epochs : Trainer toyC :=
  Build_Trainer toyC 10%Z 10%Z None EvalMode EvalMode (1 # 10)
    ([([1; 2], [1; 3])])%nat ([([1; 2], [1; 2])])%nat
    3 3 5 1%Z (1 # 2) (1 # 4).

(** The same trainer with empty loaders. *)
Definition toy_st_empty : Trainer toyC :=
  Build_Trainer toyC 10%Z 10%Z None EvalMode EvalMode (1 # 10) [] [] 0 1 0 1%Z 0 0.

Lemma toy_mix_keeps_nonempty : mix_keeps_nonempty toyC.
Proof. intros xs ys H. exact H. Qed.

(** ** Witnesses *)

Lemma run_no_epochs_witness :
  max_epoch toyC toy_st_no_epochs = start_epoch toyC toy_st_no_epochs /\
  let '(r, st', t) := run toyC toy_st_no_epochs in
  r = Some tt /\ t = [EZeroGrad; EOptStep] /\
  best_model_metric toyC st' = best_model_metric toyC toy_st_no_epochs /\
  best_model_ema_metric toyC st' = best_model_ema_metric toyC toy_st_no_epochs /\
  log_iter toyC st' = log_iter toyC toy_st_no_epochs.
Proof.
  split; [reflexivity|]. apply (run_no_epochs toyC toy_st_no_epochs). reflexivity.
Defined.

Lemma train_one_epoch_ema_per_batch_witness :
  res_of toyC (train_one_epoch toyC 0) toy_st <> None /\
  filter is_train_op (tr_of toyC (train_one_epoch toyC 0) toy_st) =
  List.concat (List.repeat batch_ops (List.length (train_loader toyC toy_st))).
Proof.
  assert (H : res_of toyC (train_one_epoch toyC 0) toy_st <> None) by (vm_compute; discriminate).
  split; [exact H|]. exact (train_one_epoch_ema_per_batch toyC 0 toy_st H).
Defined.

Lemma epoch_accuracy_in_range_witness :
  (mix_keeps_nonempty toyC /\
   train_loader toyC toy_st <> [] /\ Forall (batch_nonempty toyC) (train_loader toyC toy_st) /\
   res_of toyC (train_one_epoch toyC 0) toy_st =
     Some {| Accuracy := Some (3 # 4); Loss := Some (4 # 8) |}) /\
  exists a, Some (3 # 4) = Some a /\ 0 <= a /\ a <= 1.
Proof.
  assert (Hne : train_loader toyC toy_st <> []) by discriminate.
  assert (Hb : Forall (batch_nonempty toyC) (train_loader toyC toy_st)).
  { repeat constructor; discriminate. }
  assert (Hr : res_of toyC (train_one_epoch toyC 0) toy_st =
                 Some {| Accuracy := Some (3 # 4); Loss := Some (4 # 8) |})
    by (vm_compute; reflexivity).
  split; [repeat split; assumption || exact toy_mix_keeps_nonempty|].
  exact (epoch_accuracy_in_range toyC 0 false toy_st _ toy_mix_keeps_nonempty
           (or_introl (conj Hne (conj Hb Hr)))).
Defined.

Lemma train_iteration_logging_witness :
  exists lh' ah' st' t,
    train_step toyC 0 1 0 [] [] ([1; 2], [1; 3])%nat toy_st = (Some (lh', ah'), st', t) /\
    (Z.of_nat (log_iter toyC toy_st) mod log_freq toyC toy_st = 0)%Z /\
    exists acc loss,
      ah' = [] ++ [acc] /\ lh' = [] ++ [Some loss] /\
      filter is_log t =
        [EScalar tag_train_acc_iter acc (log_iter toyC toy_st);
         EScalar tag_train_loss_iter (Some loss) (log_iter toyC toy_st);
         EText (MsgTrainIter 0 0 1 (np_mean lh') (np_mean ah') (lr toyC toy_st))].
Proof.
  destruct (train_step toyC 0 1 0 [] [] ([1; 2], [1; 3])%nat toy_st)
    as [[[[lh' ah']|] st'] t] eqn:E.
  - exists lh', ah', st', t. split; [reflexivity|]. split; [reflexivity|].
    exact (train_iteration_logging toyC 0 1 0 [] [] _ _ toy_st lh' ah' st' t E eq_refl).
  - vm_compute in E. discriminate E.
Defined.

Lemma run_epoch_is_best_witness :
  (In (EScalar tag_valid_acc (Some (6 # 8)) 0) (tr_of toyC (run_epoch toyC 0) toy_st) /\
   In (EScalar tag_valid_ema_acc (Some (6 # 8)) 0) (tr_of toyC (run_epoch toyC 0) toy_st) /\
   In (ESave 0 true true (6 # 8) (6 # 8)) (tr_of toyC (run_epoch toyC 0) toy_st)) /\
  (true = true <-> exists a, Some (6 # 8) = Some a /\ best_model_metric toyC toy_st < a) /\
  (true = true <-> exists a, Some (6 # 8) = Some a /\ best_model_ema_metric toyC toy_st < a).
Proof.
  assert (H1 : In (EScalar tag_valid_acc (Some (6 # 8)) 0) (tr_of toyC (run_epoch toyC 0) toy_st))
    by (vm_compute; repeat (first [left; reflexivity | right])).
  assert (H2 : In (EScalar tag_valid_ema_acc (Some (6 # 8)) 0)
                 (tr_of toyC (run_epoch toyC 0) toy_st))
    by (vm_compute; repeat (first [left; reflexivity | right])).
  assert (H3 : In (ESave 0 true true (6 # 8) (6 # 8)) (tr_of toyC (run_epoch toyC 0) toy_st))
    by (vm_compute; repeat (first [left; reflexivity | right])).
  split; [split; [exact H1|split; [exact H2|exact H3]]|].
  exact (run_epoch_is_best toyC 0 toy_st _ _ _ _ _ _ H1 H2 H3).
Defined.

Lemma run_epochs_in_order_witness :
  res_of toyC (run toyC) toy_st = Some tt /\
  exists segs,
    List.length segs = (max_epoch toyC toy_st - start_epoch toyC toy_st)%nat /\
    tr_of toyC (run toyC) toy_st = [EZeroGrad; EOptStep] ++ List.concat segs /\
    Forall2 (fun e seg => phases seg = epoch_phases e)
            (seq (start_epoch toyC toy_st) (max_epoch toyC toy_st - start_epoch toyC toy_st))
            segs.
Proof.
  assert (H : res_of toyC (run toyC) toy_st = Some tt) by (vm_compute; reflexivity).
  split; [exact H|]. exact (run_epochs_in_order toyC toy_st H).
Defined.

Lemma empty_loader_nan_witness :
  res_of toyC (valid_one_epoch toyC 0 true) toy_st_empty =
    Some {| Accuracy := None; Loss := None |} /\
  res_of toyC (train_one_epoch toyC 0) toy_st_empty =
    Some {| Accuracy := None; Loss := None |}.
Proof.
  destruct (empty_loader_nan toyC 0 true toy_st_empty) as [Hv Ht].
  split; [apply Hv | apply Ht]; reflexivity.
Defined.

(** ** Counterexample *)

(** Does a metrics-sink scalar event carry the value [q]? *)
Definition scalar_carries (q : Q) (ev : event) : bool :=
  match ev with
  | EScalar _ (Some v) _ => Qeq_bool v q
  | _ => false
  end.

Lemma no_scalar_carries (q : Q) (t : list event) :
  existsb (scalar_carries q) t = false ->
  ~ (exists tag v step, In (EScalar tag (Some v) step) t /\ v == q).
Proof.
  intros Hb [tag [v [step [Hin Heq]]]].
  assert (Hx : existsb (scalar_carries q) t = true).
  { apply existsb_exists. exists (EScalar tag (Some v) step). split; [exact Hin|].
    cbn. apply Qeq_bool_iff. exact Heq. }
  rewrite Hb in Hx. discriminate Hx.
Qed.

(** With [log_freq = 1] every iteration is a logging iteration, yet no
    metrics-sink scalar written by [train_one_epoch] carries the learning
    rate: only [Train/Accuracy_iter] and [Train/Loss_iter] are written. *)
Lemma train_one_epoch_lr_not_in_sink :
  log_freq toyC toy_st = 1%Z /\
  ~ (exists tag v step,
       In (EScalar tag (Some v) step) (tr_of toyC (train_one_epoch toyC 0) toy_st) /\
       v == lr toyC toy_st).
Proof.
  split; [reflexivity|].
  apply no_scalar_carries. vm_compute. reflexivity.
Qed.

(** ** Witnesses of the further properties *)

(** A trainer built by [__init__] with empty [opts] and [kwargs] and the
    loaders of [toy_st]. *)
Definition toy_init : Trainer toyC :=
  trainer_init toyC [] 10%Z 10%Z None EvalMode EvalMode (1 # 10)
    ([([1; 2], [1; 3]); ([4], [4])])%nat
    ([([1; 2], [1; 2]); ([3; 3], [1; 3])])%nat
    default_start_epoch default_max_epoch [].

(** [toy_st] with [log_freq = 0]. *)
Definition toy_st_zero_freq : Trainer toyC :=
  Build_Trainer toyC 10%Z 10%Z None EvalMode EvalMode (1 # 10)
    ([([1; 2], [1; 3]); ([4], [4])])%nat
    ([([1; 2], [1; 2]); ([3; 3], [1; 3])])%nat
    0 2 0 0%Z 0 0.

(** [toy_st] with the same live model and validation loader, and every
    other field different. *)
Definition toy_st_other : Trainer toyC :=
  Build_Trainer toyC 10%Z 3%Z (Some 7%Z) TrainMode TrainMode (1 # 3)
    ([([5], [6])])%nat
    ([([1; 2], [1; 2]); ([3; 3], [1; 3])])%nat
    4 9 12 5%Z (1 # 2) (1 # 3).

(** A validation batch of three inputs and two targets. *)
Definition toy_st_bad_batch : Trainer toyC :=
  Build_Trainer toyC 10%Z 10%Z None EvalMode EvalMode (1 # 10)
    ([([1; 2], [1; 3])])%nat
    ([([1; 2], [1; 2]); ([1; 2; 3], [1; 2])])%nat
    0 1 0 1%Z 0 0.

Ltac refute_none E := exfalso; revert E; vm_compute; intros E; discriminate E.

Lemma trainer_init_first_epoch_log_steps_witness :
  exists m st' t,
    train_one_epoch toyC 0 toy_init = (Some m, st', t) /\
    scalar_steps tag_train_acc_iter t =
      filter (log_due_at (getattr_Z [] "common.log_freq" 100))
             (seq 0 (List.length (train_loader toyC toy_init))).
Proof.
  destruct (train_one_epoch toyC 0 toy_init) as [[[m|] st'] t] eqn:E; [|refute_none E].
  exists m, st', t. split; [reflexivity|].
  exact (trainer_init_first_epoch_log_steps toyC [] 10%Z 10%Z None EvalMode EvalMode (1 # 10)
           _ _ default_start_epoch default_max_epoch [] 0 m st' t tag_train_acc_iter
           (or_introl eq_refl) E).
Defined.

Lemma train_one_epoch_log_steps_witness :
  exists m st' t,
    train_one_epoch toyC 0 toy_st = (Some m, st', t) /\
    scalar_steps tag_train_loss_iter t =
      filter (log_due_at (log_freq toyC toy_st))
             (seq (log_iter toyC toy_st) (List.length (train_loader toyC toy_st))).
Proof.
  destruct (train_one_epoch toyC 0 toy_st) as [[[m|] st'] t] eqn:E; [|refute_none E].
  exists m, st', t. split; [reflexivity|].
  exact (train_one_epoch_log_steps toyC 0 toy_st m st' t tag_train_loss_iter
           (or_intror eq_refl) E).
Defined.

Lemma train_one_epoch_frame_witness :
  exists m st' t,
    train_one_epoch toyC 0 toy_st = (Some m, st', t) /\
    log_iter toyC st' = (log_iter toyC toy_st + List.length (train_loader toyC toy_st))%nat /\
    live_mode toyC st' = TrainMode.
Proof.
  destruct (train_one_epoch toyC 0 toy_st) as [[[m|] st'] t] eqn:E; [|refute_none E].
  exists m, st', t. split; [reflexivity|].
  destruct (train_one_epoch_frame toyC 0 toy_st m st' t E) as [Hi [Hl _]].
  split; assumption.
Defined.

Lemma train_step_fresh_gradient_witness :
  exists lh' ah' st' t,
    train_step toyC 0 1 0 [] [] ([1; 2], [1; 3])%nat toy_st = (Some (lh', ah'), st', t) /\
    grads toyC st' = Some 1%Z /\ params toyC st' = 9%Z /\ ema_params toyC st' = 9%Z.
Proof.
  destruct (train_step toyC 0 1 0 [] [] ([1; 2], [1; 3])%nat toy_st)
    as [[[[lh' ah']|] st'] t] eqn:E; [|refute_none E].
  exists lh', ah', st', t. split; [reflexivity|].
  pose proof (train_step_fresh_gradient toyC 0 1 0 [] [] _ _ toy_st lh' ah' st' t E) as H.
  cbn in H. destruct H as [Hg [Hp He]].
  split; [exact Hg|]. split; [exact Hp|]. rewrite He, Hp. reflexivity.
Defined.

Lemma train_one_epoch_ema_trajectory_witness :
  exists m st' t,
    train_one_epoch toyC 0 toy_st = (Some m, st', t) /\
    params toyC st' = 8%Z /\ ema_params toyC st' = 8%Z.
Proof.
  destruct (train_one_epoch toyC 0 toy_st) as [[[m|] st'] t] eqn:E; [|refute_none E].
  exists m, st', t. split; [reflexivity|].
  pose proof (train_one_epoch_ema_trajectory toyC 0 toy_st m st' t E) as [Hp He].
  rewrite Hp, He. split; vm_compute; reflexivity.
Defined.

Lemma train_one_epoch_zero_log_freq_witness :
  log_freq toyC toy_st_zero_freq = 0%Z /\ train_loader toyC toy_st_zero_freq <> [] /\
  res_of toyC (train_one_epoch toyC 0) toy_st_zero_freq = None /\
  filter is_train_op (tr_of toyC (train_one_epoch toyC 0) toy_st_zero_freq) = batch_ops.
Proof.
  assert (Hf : log_freq toyC toy_st_zero_freq = 0%Z) by reflexivity.
  assert (Hne : train_loader toyC toy_st_zero_freq <> []) by discriminate.
  split; [exact Hf|]. split; [exact Hne|].
  exact (train_one_epoch_zero_log_freq toyC 0 toy_st_zero_freq Hf Hne).
Defined.

Lemma valid_one_epoch_depends_on_model_witness :
  valid_loader toyC toy_st = valid_loader toyC toy_st_other /\
  model_params toyC toy_st (valid_model true) = model_params toyC toy_st_other (valid_model true) /\
  res_of toyC (valid_one_epoch toyC 0 true) toy_st =
  res_of toyC (valid_one_epoch toyC 7 true) toy_st_other.
Proof.
  assert (Hl : valid_loader toyC toy_st = valid_loader toyC toy_st_other) by reflexivity.
  assert (Hp : model_params toyC toy_st (valid_model true) =
               model_params toyC toy_st_other (valid_model true)) by reflexivity.
  split; [exact Hl|]. split; [exact Hp|].
  exact (valid_one_epoch_depends_on_model toyC 0 7 true toy_st toy_st_other Hl Hp).
Defined.

Lemma valid_one_epoch_batch_mean_witness :
  res_of toyC (valid_one_epoch toyC 0 false) toy_st =
    Some {| Accuracy := Some (6 # 8); Loss := Some (4 # 8) |} /\
  exists accs,
    Forall2 (fun b a => exists ind,
               eq_float toyC (map (argmax toyC)
                                  (eval_logits toyC (model_params toyC toy_st (valid_model false)) b))
                        (snd b) = Some ind /\
               a = tensor_mean ind) (valid_loader toyC toy_st) accs /\
    Some (6 # 8) = np_mean accs /\
    Some (4 # 8) = np_mean (map (fun b => Some (criterion toyC
                                   (eval_logits toyC (model_params toyC toy_st (valid_model false)) b)
                                   (snd b))) (valid_loader toyC toy_st)).
Proof.
  assert (Hr : res_of toyC (valid_one_epoch toyC 0 false) toy_st =
                 Some {| Accuracy := Some (6 # 8); Loss := Some (4 # 8) |})
    by (vm_compute; reflexivity).
  split; [exact Hr|].
  exact (valid_one_epoch_batch_mean toyC 0 false toy_st _ Hr).
Defined.

Lemma valid_one_epoch_shape_mismatch_witness :
  In ([1; 2; 3], [1; 2])%nat (valid_loader toyC toy_st_bad_batch) /\
  List.length [1; 2; 3]%nat <> List.length [1; 2]%nat /\
  List.length [1; 2; 3]%nat <> 1%nat /\ List.length [1; 2]%nat <> 1%nat /\
  res_of toyC (valid_one_epoch toyC 0 false) toy_st_bad_batch = None.
Proof.
  assert (Hin : In ([1; 2; 3], [1; 2])%nat (valid_loader toyC toy_st_bad_batch))
    by (right; left; reflexivity).
  assert (H1 : List.length [1; 2; 3]%nat <> List.length [1; 2]%nat) by discriminate.
  assert (H2 : List.length [1; 2; 3]%nat <> 1%nat) by discriminate.
  assert (H3 : List.length [1; 2]%nat <> 1%nat) by discriminate.
  split; [exact Hin|]. split; [exact H1|]. split; [exact H2|]. split; [exact H3|].
  exact (valid_one_epoch_shape_mismatch toyC 0 false toy_st_bad_batch _ _ Hin H1 H2 H3).
Defined.

Lemma run_epoch_best_is_max_witness :
  exists st' t,
    run_epoch toyC 0 toy_st = (Some tt, st', t) /\
    In (EScalar tag_valid_acc (Some (6 # 8)) 0) t /\
    In (EScalar tag_valid_ema_acc (Some (6 # 8)) 0) t /\
    best_model_metric toyC st' = Qmax 0 (6 # 8) /\
    best_model_ema_metric toyC st' = Qmax 0 (6 # 8).
Proof.
  destruct (run_epoch toyC 0 toy_st) as [[[[]|] st'] t] eqn:E; [|refute_none E].
  assert (Ht : tr_of toyC (run_epoch toyC 0) toy_st = t) by (unfold tr_of; rewrite E; reflexivity).
  assert (H1 : In (EScalar tag_valid_acc (Some (6 # 8)) 0) t)
    by (rewrite <- Ht; vm_compute; repeat (first [left; reflexivity | right])).
  assert (H2 : In (EScalar tag_valid_ema_acc (Some (6 # 8)) 0) t)
    by (rewrite <- Ht; vm_compute; repeat (first [left; reflexivity | right])).
  exists st', t. split; [reflexivity|]. split; [exact H1|]. split; [exact H2|].
  destruct (run_epoch_best_is_max toyC 0 toy_st st' t _ _ E H1 H2) as [Hb [Hbe _]].
  split; assumption.
Defined.

Lemma run_epoch_outputs_in_order_witness :
  exists st' t,
    run_epoch toyC 0 toy_st = (Some tt, st', t) /\
    exists b be x y (tm vm vem : metrics),
      filter is_epoch_output t =
        [ESave 0 b be x y;
         EScalar tag_lr (Some (sched_lr toyC 1)) 0;
         EScalar tag_train_acc (Accuracy tm) 0; EScalar tag_train_loss (Loss tm) 0;
         EScalar tag_valid_acc (Accuracy vm) 0; EScalar tag_valid_loss (Loss vm) 0;
         EScalar tag_valid_ema_acc (Accuracy vem) 0;
         EScalar tag_valid_ema_loss (Loss vem) 0].
Proof.
  destruct (run_epoch toyC 0 toy_st) as [[[[]|] st'] t] eqn:E; [|refute_none E].
  exists st', t. split; [reflexivity|].
  exact (run_epoch_outputs_in_order toyC 0 toy_st st' t E).
Defined.

Lemma run_epoch_final_state_witness :
  exists st' t,
    run_epoch toyC 0 toy_st = (Some tt, st', t) /\
    live_mode toyC st' = EvalMode /\ ema_mode toyC st' = EvalMode /\
    lr toyC st' = sched_lr toyC 1 /\
    log_iter toyC st' = (log_iter toyC toy_st + List.length (train_loader toyC toy_st))%nat.
Proof.
  destruct (run_epoch toyC 0 toy_st) as [[[[]|] st'] t] eqn:E; [|refute_none E].
  exists st', t. split; [reflexivity|].
  exact (run_epoch_final_state toyC 0 toy_st st' t E).
Defined.

Lemma run_log_iter_witness :
  res_of toyC (run toyC) toy_st = Some tt /\
  log_iter toyC (st_of toyC (run toyC) toy_st) =
    (log_iter toyC toy_st +
     (max_epoch toyC toy_st - start_epoch toyC toy_st) * List.length (train_loader toyC toy_st))%nat.
Proof.
  assert (H : res_of toyC (run toyC) toy_st = Some tt) by (vm_compute; reflexivity).
  split; [exact H|]. exact (run_log_iter toyC toy_st H).
Defined.
